(** * packngo: the HTTP client core of packngo.go

    A shallow embedding of [populateRate], [ErrorResponse.Error],
    [NewRequest], [Do], [NewClient] and [CheckResponse], together with
    the parts of the Go standard library they call ([strconv],
    [net/textproto], [net/http], [io], [io/ioutil], [fmt]).

    Conventions.
    - A Go [string] or [[]byte] is a [string] (a sequence of 8-bit
      characters); [int] and [int64] are [Z], on a 64-bit platform.
    - A Go [error] is [option error], [None] being [nil].
    - A pointer that the code may find nil is an [option], and a call
      that dereferences it ends in [panic_nil_dereference].  What
      several pointers share is passed on as state: the response that
      [Do], its wrapper and [CheckResponse] refer to is returned by
      [CheckResponse] as the decoding of the body leaves it, and the
      transports that [NewClient] allocates have addresses.
    - The library functions are those of the current Go standard
      library, written out as far as the calls made here reach.
    - The functions of [net/url] and the reflective decoding of
      [encoding/json] into [ErrorResponse] are parameters of the model:
      every theorem holds whatever they compute. *)

From Stdlib Require Import ZArith Ascii String Bool Lia.
From stdpp Require Import base option strings gmap.

Local Open Scope Z_scope.

(** ** Bytes *)

Definition byte_code (c : ascii) : Z := Z.of_N (N_of_ascii c).

Definition byte_in (lo hi c : ascii) : bool :=
  (byte_code lo <=? byte_code c) && (byte_code c <=? byte_code hi).

Definition len (s : string) : Z := Z.of_nat (String.length s).

(** The double quote, and a text between two of them. *)
Definition quote : ascii := "034".

Definition quoted (s : string) : string :=
  String quote (s +:+ String quote EmptyString).

(** ** strconv *)

(** [strconv.NumError.Err]: the two ways a conversion fails. *)
Inductive NumError : Type :=
  | ErrSyntax
  | ErrRange.

Definition IntSize : Z := 64.

(** The digit loop of [strconv.ParseUint(s, 10, bitSize)]: [n] is the
    [uint64] accumulator.  An overflow ends the loop at once, with what
    follows the overflowing digit left unread. *)
Fixpoint ParseUint_loop (maxVal : Z) (s : string) (n : Z) : Z * option NumError :=
  match s with
  | EmptyString => (n, None)
  | String c s' =>
      if byte_in "0" "9" c then
        let d := byte_code c - byte_code "0" in
        let cutoff := (2 ^ 64 - 1) / 10 + 1 in
        if cutoff <=? n then (maxVal, Some ErrRange)
        else
          let n10 := (n * 10) mod 2 ^ 64 in
          let n1 := (n10 + d) mod 2 ^ 64 in
          if (n1 <? n10) || (maxVal <? n1) then (maxVal, Some ErrRange)
          else ParseUint_loop maxVal s' n1
      else (0, Some ErrSyntax)
  end.

Definition ParseUint (s : string) (bitSize : Z) : Z * option NumError :=
  match s with
  | EmptyString => (0, Some ErrSyntax)
  | _ =>
      let bitSize := if bitSize =? 0 then IntSize else bitSize in
      ParseUint_loop (2 ^ bitSize - 1) s 0
  end.

(** [strconv.ParseInt(s, 10, bitSize)]. *)
Definition ParseInt (s : string) (bitSize : Z) : Z * option NumError :=
  match s with
  | EmptyString => (0, Some ErrSyntax)
  | String c0 s' =>
      let neg := Ascii.eqb c0 "-" in
      let s1 := if Ascii.eqb c0 "+" || neg then s' else s in
      match ParseUint s1 bitSize with
      | (_, Some ErrSyntax) => (0, Some ErrSyntax)
      | (un, _) =>
          let bitSize := if bitSize =? 0 then IntSize else bitSize in
          let cutoff := 2 ^ (bitSize - 1) in
          if negb neg && (cutoff <=? un) then (cutoff - 1, Some ErrRange)
          else if neg && (cutoff <? un) then (- cutoff, Some ErrRange)
          else (if neg then - un else un, None)
      end
  end.

(** The fast path of [strconv.Atoi]: [ch -= '0'] wraps in a byte. *)
Fixpoint Atoi_digits (s : string) (n : Z) : option Z :=
  match s with
  | EmptyString => Some n
  | String ch s' =>
      let ch := (byte_code ch - byte_code "0") mod 256 in
      if 9 <? ch then None else Atoi_digits s' (n * 10 + ch)
  end.

(** [strconv.Atoi(s)]. *)
Definition Atoi (s : string) : Z * option NumError :=
  let sLen := len s in
  if (0 <? sLen) && (sLen <? 19) then
    match s with
    | EmptyString => (0, Some ErrSyntax)
    | String c0 s' =>
        let signed := Ascii.eqb c0 "-" || Ascii.eqb c0 "+" in
        let s1 := if signed then s' else s in
        if signed && (len s1 <? 1) then (0, Some ErrSyntax)
        else
          match Atoi_digits s1 0 with
          | None => (0, Some ErrSyntax)
          | Some n => (if Ascii.eqb c0 "-" then - n else n, None)
          end
    end
  else ParseInt s 0.

(** [strconv.FormatInt(i, 10)], which is how [fmt] prints an integer
    under [%d] and [%v]. *)
Definition digit_char (d : Z) : ascii := ascii_of_N (Z.to_N (byte_code "0" + d)).

Fixpoint formatBits (fuel : nat) (u : Z) (acc : string) : string :=
  let acc := String (digit_char (u mod 10)) acc in
  match fuel with
  | O => acc
  | S fuel' => if u <? 10 then acc else formatBits fuel' (u / 10) acc
  end.

Definition FormatInt (i : Z) : string :=
  let u := Z.abs i in
  let digits := formatBits (Z.to_nat (Z.log2 u)) u EmptyString in
  if i <? 0 then String "-" digits else digits.

(** ** net/textproto and http.Header *)

(** [textproto.validHeaderFieldByte]: the token characters of RFC 7230. *)
Definition validHeaderFieldByte (c : ascii) : bool :=
  byte_in "a" "z" c || byte_in "A" "Z" c || byte_in "0" "9" c
  || existsb (Ascii.eqb c)
       ["!"; "#"; "$"; "%"; "&"; "'"; "*"; "+"; "-"; "."; "^"; "_"; "`"; "|"; "~"]%char.

Fixpoint all_bytes (p : ascii -> bool) (s : string) : bool :=
  match s with
  | EmptyString => true
  | String c s' => p c && all_bytes p s'
  end.

Definition toUpper (c : ascii) : ascii :=
  if byte_in "a" "z" c then ascii_of_N (N_of_ascii c - 32) else c.

Definition toLower (c : ascii) : ascii :=
  if byte_in "A" "Z" c then ascii_of_N (N_of_ascii c + 32) else c.

(** The rewriting loop of [textproto.canonicalMIMEHeaderKey]: upper case
    at the start and after each dash, lower case elsewhere. *)
Fixpoint canonical_loop (upper : bool) (s : string) : string :=
  match s with
  | EmptyString => EmptyString
  | String c s' =>
      let c := if upper then toUpper c else toLower c in
      String c (canonical_loop (Ascii.eqb c "-") s')
  end.

(** [textproto.CanonicalMIMEHeaderKey]: a key holding a byte that is
    not a token character is returned as it is. *)
Definition CanonicalMIMEHeaderKey (s : string) : string :=
  if all_bytes validHeaderFieldByte s then canonical_loop true s else s.

(** [http.Header] is [map[string][]string]. *)
Abbreviation http_Header := (gmap string (list string)).

Definition Header_Get (h : http_Header) (key : string) : string :=
  match h !! CanonicalMIMEHeaderKey key with
  | Some (v :: _) => v
  | _ => EmptyString
  end.

Definition Header_Add (h : http_Header) (key value : string) : http_Header :=
  let k := CanonicalMIMEHeaderKey key in
  <[k := default [] (h !! k) ++ [value]]> h.

(** ** fmt *)

(** The operands [Error] hands to [fmt.Sprintf]: a string, an integer,
    and a pointer whose type has a [String] method, given by what that
    method returns, or [None] when the pointer is nil: the method then
    panics on its receiver, [fmt] recovers, and prints [<nil>]. *)
Inductive fmt_operand : Type :=
  | fmt_string (s : string)
  | fmt_int (i : Z)
  | fmt_Stringer (s : option string).

Definition fmt_value (a : fmt_operand) : string :=
  match a with
  | fmt_string s | fmt_Stringer (Some s) => s
  | fmt_Stringer None => "<nil>"
  | fmt_int i => FormatInt i
  end.

Definition fmt_type (a : fmt_operand) : string :=
  match a with
  | fmt_string _ => "string"
  | fmt_int _ => "int"
  | fmt_Stringer _ => "Stringer"
  end.

(** One verb applied to one operand.  [%v] prints any operand in its
    default form, [%s] a string, [%d] an integer; any other pairing is
    printed the way [fmt] reports a verb it cannot apply (for a
    [Stringer] operand that report is outside what is modelled). *)
Definition fmt_verb (verb : ascii) (a : fmt_operand) : string :=
  let ok :=
    match a with
    | fmt_string _ | fmt_Stringer _ => Ascii.eqb verb "v" || Ascii.eqb verb "s"
    | fmt_int _ => Ascii.eqb verb "v" || Ascii.eqb verb "d"
    end in
  if ok then fmt_value a
  else "%!" +:+ String verb ("(" +:+ fmt_type a +:+ "=" +:+ fmt_value a +:+ ")").

Fixpoint fmt_extra (a : list fmt_operand) : string :=
  match a with
  | [] => EmptyString
  | [x] => fmt_type x +:+ "=" +:+ fmt_value x
  | x :: a' => fmt_type x +:+ "=" +:+ fmt_value x +:+ ", " +:+ fmt_extra a'
  end.

(** [fmt.Sprintf] for formats made of plain text, [%%] and one-letter
    verbs without flags or widths. *)
Fixpoint fmt_Sprintf (format : string) (a : list fmt_operand) : string :=
  match format with
  | EmptyString =>
      match a with
      | [] => EmptyString
      | _ => "%!(EXTRA " +:+ fmt_extra a +:+ ")"
      end
  | String c rest =>
      if Ascii.eqb c "%" then
        match rest with
        | EmptyString => "%!(NOVERB)"
        | String verb rest' =>
            if Ascii.eqb verb "%" then String "%" (fmt_Sprintf rest' a)
            else
              match a with
              | [] => "%!" +:+ String verb ("(MISSING)" +:+ fmt_Sprintf rest' [])
              | x :: a' => fmt_verb verb x +:+ fmt_Sprintf rest' a'
              end
        end
      else String c (fmt_Sprintf rest a)
  end.

(** ** net/url and net/http: the data *)

(** [url.URL], without its user information and raw forms. *)
Record url_URL : Type := mk_URL {
  Scheme : string;
  Opaque : string;
  Host : string;
  Path : string;
  RawQuery : string;
  Fragment : string
}.

(** [http.Request]: [Request_Header] is its [Header] and [Request_Body]
    the bytes of the buffer it was built over.  [URL] is a pointer,
    [None] when it is nil. *)
Record http_Request : Type := mk_Request {
  Method : string;
  URL : option url_URL;
  Request_Header : http_Header;
  Request_Body : string;
  Close : bool
}.

(** [http.Response].  [Request] is a pointer, [None] when it is nil.
    The [Body] is kept apart: the struct only refers to the stream, and
    it is the stream that [Read] and [Close] change.

    The functions below reach a response through a [*http.Response].
    A pointer is modelled by what it points to at the time it is read,
    and the sharing by the passing of state: a function that writes
    through the pointer returns the response as it leaves it, and
    whoever holds the same pointer reads that. *)
Record http_Response : Type := mk_Response {
  StatusCode : Z;
  Header : http_Header;
  Request : option http_Request
}.

(** What [new(http.Response)] points to. *)
Definition zero_Response : http_Response :=
  {| StatusCode := 0; Header := ∅; Request := None |}.

(** ** packngo: the data *)

(** [time.Time] as far as the code builds one: the zero value, or
    [time.Unix(sec, 0)]. *)
Inductive time_Time : Type :=
  | time_zero
  | time_Unix (sec : Z).

(** Modelled from the spec: the type [Timestamp] is declared outside
    packngo.go; the code builds it as [Timestamp{time.Unix(v, 0)}], a
    struct around one [time.Time]. *)
Record Timestamp : Type := mk_Timestamp { Time : time_Time }.

(** Modelled from the spec: the type [Rate] is declared outside
    packngo.go; it is the rate snapshot, the tracked triple of request
    limit, requests remaining and reset time, under the field names the
    code assigns. *)
Record Rate : Type := mk_Rate {
  RequestLimit : Z;
  RequestsRemaining : Z;
  Reset : Timestamp
}.

(** The zero value of [Rate]. *)
Definition Rate_zero : Rate :=
  {| RequestLimit := 0; RequestsRemaining := 0; Reset := {| Time := time_zero |} |}.

(** [Response], the wrapper [Do] builds around a response: the
    embedded [*http.Response], given by the response it points to when
    the wrapper is read, and the embedded [Rate]. *)
Record Response : Type := mk_packngo_Response {
  Response_Response : http_Response;
  Response_Rate : Rate
}.

(** [ErrorResponse].  Its [Response] is a [*http.Response]: [None]
    when it is nil, and else the response it points to. *)
Record ErrorResponse : Type := mk_ErrorResponse {
  ErrorResponse_Response : option http_Response;
  Message : string
}.

(** What a call that dereferences pointers comes to: a value, or the
    run-time panic of a nil pointer dereference. *)
Inductive or_panic (A : Type) : Type :=
  | done (a : A)
  | panic_nil_dereference.

Arguments done {A} a.
Arguments panic_nil_dereference {A}.

(** A non-nil Go [error]: a [*ErrorResponse], or an error of a library,
    kept as its text. *)
Inductive error : Type :=
  | errorString (text : string)
  | ptr_ErrorResponse (e : ErrorResponse).

(** ** io and io/ioutil *)

(** A response body, [io.ReadCloser]: [pending] lists what the coming
    calls of [Read] deliver, one chunk a call; when nothing is pending
    [Read] reports [failure], or [io.EOF] if there is none. *)
Record ReadCloser : Type := mk_ReadCloser {
  pending : list string;
  failure : option error;
  closed : bool
}.

Definition io_EOF : error := errorString "EOF".
Definition io_ErrShortWrite : error := errorString "short write".
Definition io_errInvalidWrite : error := errorString "invalid write result".
Definition http_ErrBodyReadAfterClose : error :=
  errorString "http: invalid Read on closed Body".

(** [if er != io.EOF { err = er }]: the end of a stream is no error. *)
Definition unless_EOF (er : error) : option error :=
  match er with
  | errorString text => if String.eqb text "EOF" then None else Some er
  | ptr_ErrorResponse _ => Some er
  end.

Definition Body_Close (b : ReadCloser) : ReadCloser :=
  {| pending := pending b; failure := failure b; closed := true |}.

(** What is left of the stream once [chunks] are all that is pending. *)
Definition Body_rest (b : ReadCloser) (chunks : list string) : ReadCloser :=
  {| pending := chunks; failure := failure b; closed := closed b |}.

(** The error that ends the reading of a stream with nothing pending. *)
Definition Body_end (b : ReadCloser) : error :=
  if closed b then http_ErrBodyReadAfterClose else default io_EOF (failure b).

Definition Body_Read (b : ReadCloser) : ReadCloser * string * option error :=
  if closed b then (b, EmptyString, Some http_ErrBodyReadAfterClose)
  else
    match pending b with
    | [] => (b, EmptyString, Some (Body_end b))
    | chunk :: rest => (Body_rest b rest, chunk, None)
    end.

(** [io.Writer]. *)
Class io_Writer (W : Type) : Type :=
  Write : W -> string -> W * Z * option error.

(** The loop of [io.Copy(dst, src)] over the chunks [src] delivers;
    [last] is the error of the [Read] that delivers nothing.  The
    result is the writer, the chunks left unread, the count of bytes
    written and the error.  This is the loop over a buffer; the
    shortcuts through [io.WriterTo] and [io.ReaderFrom] are left out. *)
Fixpoint io_Copy_loop {W : Type} `{io_Writer W} (dst : W) (chunks : list string)
    (last : error) (written : Z) : W * list string * Z * option error :=
  match chunks with
  | [] =>
      (dst, [], written, unless_EOF last)
  | buf :: rest =>
      let nr := len buf in
      if 0 <? nr then
        let '(dst, nw, ew) := Write dst buf in
        let '(nw, ew) :=
          if (nw <? 0) || (nr <? nw)
          then (0, Some (default io_errInvalidWrite ew)) else (nw, ew) in
        let written := written + nw in
        match ew with
        | Some _ => (dst, rest, written, ew)
        | None =>
            if negb (nr =? nw) then (dst, rest, written, Some io_ErrShortWrite)
            else io_Copy_loop dst rest last written
        end
      else io_Copy_loop dst rest last written
  end.

Definition io_Copy {W : Type} `{io_Writer W} (dst : W) (src : ReadCloser)
    : W * ReadCloser * Z * option error :=
  let chunks := if closed src then [] else pending src in
  let '(dst, rest, written, err) := io_Copy_loop dst chunks (Body_end src) 0 in
  (dst, (if closed src then src else Body_rest src rest), written, err).

(** [ioutil.ReadAll(r)]: everything read until [Read] fails, and the
    error unless it is [io.EOF]. *)
Definition ioutil_ReadAll (r : ReadCloser) : ReadCloser * string * option error :=
  let chunks := if closed r then [] else pending r in
  ((if closed r then r else Body_rest r []),
   fold_right String.append EmptyString chunks,
   unless_EOF (Body_end r)).

(** ** encoding/json, as far as it depends on the value handed over *)

(** What [json.NewDecoder(r).Decode(v)] does is decided by the dynamic
    type of [v]: the class gives, for a destination type, the stream
    left behind, the destination as filled and the error. *)
Class json_Target (T : Type) : Type :=
  json_Decode : ReadCloser -> T -> ReadCloser * T * option error.

(** Likewise the marshalling of a request body. *)
Class json_Marshaler (B : Type) : Type :=
  json_Marshal : B -> string + error.

(** [json.NewEncoder(buf).Encode(body)]: the marshalled value and a
    newline are appended to the buffer. *)
Definition json_Encode {B : Type} `{json_Marshaler B} (buf : string) (body : B)
    : string + error :=
  match json_Marshal body with
  | inl b => inl (buf +:+ b +:+ String "010" EmptyString)
  | inr err => inr err
  end.

(** The [v interface{}] of [Do]: nil, or a value [t] of some type.
    [writer] is what the assertion [v.(io.Writer)] finds: the [Write]
    method of the value when it has one.  [target] is how
    [encoding/json] decodes into a value of that type, which every
    value has, a writer too. *)
Inductive destination : Type :=
  | nil_destination
  | a_destination {T : Type} (writer : option (io_Writer T)) (target : json_Target T) (t : T).

(** The [body interface{}] of [NewRequest]. *)
Inductive payload : Type :=
  | nil_payload
  | some_payload {B : Type} `{json_Marshaler B} (b : B).

(** ** net/http: building and sending a request *)

Definition strings_HasSuffix (s suffix : string) : bool :=
  let n := String.length s in
  let k := String.length suffix in
  Nat.leb k n && String.eqb (String.substring (n - k) k s) suffix.

Definition strings_TrimSuffix (s suffix : string) : string :=
  if strings_HasSuffix s suffix
  then String.substring 0 (String.length s - String.length suffix) s
  else s.

Fixpoint LastIndexByte_from (s : string) (c : ascii) (i found : Z) : Z :=
  match s with
  | EmptyString => found
  | String x s' => LastIndexByte_from s' c (i + 1) (if Ascii.eqb x c then i else found)
  end.

Definition strings_LastIndexByte (s : string) (c : ascii) : Z :=
  LastIndexByte_from s c 0 (-1).

Definition hasPort (s : string) : bool :=
  strings_LastIndexByte s "]" <? strings_LastIndexByte s ":".

Definition removeEmptyPort (host : string) : string :=
  if hasPort host then strings_TrimSuffix host ":" else host.

(** [http.validMethod]: a non-empty run of token characters. *)
Definition validMethod (method : string) : bool :=
  (0 <? len method) && all_bytes validHeaderFieldByte method.

(** The outcome of [http.Client.Do]: a response with its body, or an
    error, beside which a response may or may not come. *)
Inductive RoundTrip : Type :=
  | Responded (resp : http_Response) (body : ReadCloser)
  | Failed (resp : option http_Response) (err : error).

Definition http_Client : Type := http_Request -> RoundTrip.

(** ** packngo *)

Definition libraryVersion : string := "0.1.0".
Definition baseURL : string := "https://api.packet.net/".
Definition userAgent : string := "packngo/" +:+ libraryVersion.
Definition mediaType : string := "application/json".
Definition headerRateLimit : string := "X-RateLimit-Limit".
Definition headerRateRemaining : string := "X-RateLimit-Remaining".
Definition headerRateReset : string := "X-RateLimit-Reset".

(** [tls.Config], [http.Transport] and the struct behind an
    [*http.Client], each with the fields [NewClient] reaches.  A
    [tls.Config] is reached through its transport alone and is given
    with it. *)
Record tls_Config : Type := mk_tls_Config { InsecureSkipVerify : bool }.

Record http_Transport : Type := mk_http_Transport { TLSClientConfig : option tls_Config }.

(** The [Transport] of a client: nil, for which the client falls back
    on [http.DefaultTransport]; a [*http.Transport], given by the
    address of the object, so that two transports of equal settings
    are still two; or some other [RoundTripper]. *)
Inductive RoundTripper : Type :=
  | nil_RoundTripper
  | ptr_Transport (address : nat)
  | a_RoundTripper (rt : http_Request -> RoundTrip).

Record net_Client : Type := mk_net_Client { Transport : RoundTripper; Timeout : Z }.

(** The state of package [net/http] as far as [NewClient] reaches it:
    the struct that [http.DefaultClient] points to, and the
    [http.Transport] objects allocated so far, in the order of their
    allocation, the address of each being its place in the list. *)
Record net_http : Type := mk_net_http {
  DefaultClient : net_Client;
  Transports : list http_Transport
}.

(** [Client], without the service handles. *)
Record Client : Type := mk_Client {
  client : http_Client;
  BaseURL : url_URL;
  UserAgent : string;
  ConsumerToken : string;
  ApiKey : string;
  RateLimit : Rate
}.

(** [c.RateLimit = rate]. *)
Definition set_RateLimit (c : Client) (rate : Rate) : Client :=
  {| client := client c; BaseURL := BaseURL c; UserAgent := UserAgent c;
     ConsumerToken := ConsumerToken c; ApiKey := ApiKey c; RateLimit := rate |}.

Definition set_RequestLimit (rate : Rate) (n : Z) : Rate :=
  {| RequestLimit := n; RequestsRemaining := RequestsRemaining rate; Reset := Reset rate |}.

Definition set_RequestsRemaining (rate : Rate) (n : Z) : Rate :=
  {| RequestLimit := RequestLimit rate; RequestsRemaining := n; Reset := Reset rate |}.

Definition set_Reset (rate : Rate) (t : Timestamp) : Rate :=
  {| RequestLimit := RequestLimit rate; RequestsRemaining := RequestsRemaining rate;
     Reset := t |}.

(** A [*Client] whose [BaseURL] may be nil: with a base URL it is a
    [Client]; without one it is all of a [Client] but the base URL. *)
Inductive built_Client : Type :=
  | with_BaseURL (c : Client)
  | nil_BaseURL (c : url_URL -> Client).

Definition populateRate (r : Response) : Response :=
  let header := Header (Response_Response r) in
  let rate := Response_Rate r in
  let rate :=
    let limit := Header_Get header headerRateLimit in
    if negb (String.eqb limit EmptyString)
    then set_RequestLimit rate (fst (Atoi limit)) else rate in
  let rate :=
    let remaining := Header_Get header headerRateRemaining in
    if negb (String.eqb remaining EmptyString)
    then set_RequestsRemaining rate (fst (Atoi remaining)) else rate in
  let rate :=
    let reset := Header_Get header headerRateReset in
    if negb (String.eqb reset EmptyString) then
      let v := fst (ParseInt reset 64) in
      if negb (v =? 0) then set_Reset rate {| Time := time_Unix v |} else rate
    else rate in
  {| Response_Response := Response_Response r; Response_Rate := rate |}.

(** The wrapper as [Do] builds it: [Response{Response: resp}]. *)
Definition fresh (resp : http_Response) : Response :=
  {| Response_Response := resp; Response_Rate := Rate_zero |}.

(** The effects and the results of one call of [Do]: the client, the
    destination and the body stream as the call leaves them ([None]
    when no response came), and the two values returned, the wrapper
    as it reads when [Do] returns. *)
Record Do_result : Type := mk_Do_result {
  after_c : Client;
  after_v : destination;
  after_Body : option ReadCloser;
  returned : option Response * option error
}.

(** ** Library instances for the worked examples

    Concrete writers, destinations and payloads, and reduced versions
    of [net/url] and of the decoding into [ErrorResponse], on which the
    functions above can be run.  The buffer and the tee apart, the
    theorems do not depend on them. *)

(** [*bytes.Buffer]: [Write] appends and never fails. *)
Record bytes_Buffer : Type := mk_Buffer { Bytes : string }.

#[export] Instance bytes_Buffer_Writer : io_Writer bytes_Buffer :=
  fun b p => ({| Bytes := Bytes b +:+ p |}, len p, None).

(** A writer that hands every [Write] on to [inner] and keeps, in
    [seen], the bytes it was handed. *)
Record tee (W : Type) : Type := mk_tee { inner : W; seen : string }.

Arguments mk_tee {W} _ _.
Arguments inner {W} _.
Arguments seen {W} _.

#[export] Instance tee_Writer {W : Type} `{io_Writer W} : io_Writer (tee W) :=
  fun x p =>
    let '(w, n, err) := Write (inner x) p in
    ({| inner := w; seen := seen x +:+ p |}, n, err).

(** A file on a device with [room] bytes left: [Write] stores what
    fits and reports the rest as an error. *)
Record os_File : Type := mk_File { contents : string; room : nat }.

#[export] Instance os_File_Writer : io_Writer os_File :=
  fun f p =>
    let n := Nat.min (String.length p) (room f) in
    ({| contents := contents f +:+ String.substring 0 n p; room := (room f - n)%nat |},
     Z.of_nat n,
     if Nat.ltb n (String.length p)
     then Some (errorString "write: no space left on device") else None).

(** JSON white space. *)
Definition json_isSpace (c : ascii) : bool :=
  existsb (Ascii.eqb c) [" "; "009"; "010"; "013"]%char.

Fixpoint json_skipSpace (s : string) : string :=
  match s with
  | String c s' => if json_isSpace c then json_skipSpace s' else s
  | EmptyString => s
  end.

Definition after_prefix (p s : string) : option string :=
  if String.prefix p s
  then Some (String.substring (String.length p) (String.length s - String.length p) s)
  else None.

(** A destination of type [*bool].  The first JSON value of the stream
    must be one of the three literals [true], [false] and [null]; any
    other value cannot be stored in a [bool], and any other text is not
    JSON.  A literal is complete once a byte follows it or the stream
    ends with [io.EOF].  The stream is taken as read to its end, and
    one error stands for every failure of syntax or of type; the error
    of an empty stream is [io.EOF], as it is for every destination. *)
#[export] Instance bool_Target : json_Target bool :=
  fun r v =>
    let '(r, data, err) := ioutil_ReadAll r in
    let text := json_skipSpace data in
    let complete rest :=
      negb (String.eqb rest EmptyString) || bool_decide (err = None) in
    let bad :=
      match text, err with
      | EmptyString, None => io_EOF
      | EmptyString, Some e => e
      | _, _ => errorString "json: cannot decode into Go value of type bool"
      end in
    match after_prefix "true" text, after_prefix "false" text, after_prefix "null" text with
    | Some rest, _, _ => if complete rest then (r, true, None) else (r, v, Some bad)
    | _, Some rest, _ => if complete rest then (r, false, None) else (r, v, Some bad)
    | _, _, Some rest => if complete rest then (r, v, None) else (r, v, Some bad)
    | _, _, _ => (r, v, Some bad)
    end.

(** A payload of type [int] marshals to its decimal text. *)
#[export] Instance int_Marshaler : json_Marshaler Z :=
  fun i => inl (FormatInt i).

(** A payload of a channel type cannot be marshalled. *)
Inductive chan_int : Type := make_chan_int.

#[export] Instance chan_int_Marshaler : json_Marshaler chan_int :=
  fun _ => inr (errorString "json: unsupported type: chan int").

(** *** A reduced net/url

    URLs of the two shapes [scheme://host/path] and [path], the scheme
    in lower-case letters, the host in letters, digits, dashes and
    dots, the path in letters, digits, dashes, underscores and slashes:
    no query, fragment, port, escape or dot segment. *)

Definition isCTL (c : ascii) : bool :=
  (byte_code c <? 32) || (byte_code c =? 127).

Definition path_byte (c : ascii) : bool :=
  byte_in "a" "z" c || byte_in "A" "Z" c || byte_in "0" "9" c
  || existsb (Ascii.eqb c) ["-"; "_"; "/"]%char.

Definition host_byte (c : ascii) : bool :=
  byte_in "a" "z" c || byte_in "A" "Z" c || byte_in "0" "9" c
  || existsb (Ascii.eqb c) ["-"; "."]%char.

Definition string_from (i : nat) (s : string) : string :=
  String.substring i (String.length s - i) s.

Definition reduced_Parse (rawURL : string) : url_URL + error :=
  if negb (all_bytes (fun c => negb (isCTL c)) rawURL)
  then inr (errorString "net/url: invalid control character in URL")
  else
    match String.index 0 "://" rawURL with
    | Some i =>
        let scheme := String.substring 0 i rawURL in
        let rest := string_from (i + 3) rawURL in
        let j := default (String.length rest) (String.index 0 "/" rest) in
        let host := String.substring 0 j rest in
        let path := string_from j rest in
        if negb (String.eqb scheme EmptyString) && all_bytes (byte_in "a" "z") scheme
           && negb (String.eqb host EmptyString) && all_bytes host_byte host
           && all_bytes path_byte path
        then inl {| Scheme := scheme; Opaque := EmptyString; Host := host; Path := path;
                    RawQuery := EmptyString; Fragment := EmptyString |}
        else inr (errorString "parse: outside the reduced syntax")
    | None =>
        if all_bytes path_byte rawURL && negb (String.prefix "//" rawURL)
        then inl {| Scheme := EmptyString; Opaque := EmptyString; Host := EmptyString;
                    Path := rawURL; RawQuery := EmptyString; Fragment := EmptyString |}
        else inr (errorString "parse: outside the reduced syntax")
    end.

(** [url.resolvePath] on paths without dot segments. *)
Definition reduced_resolvePath (base ref : string) : string :=
  let full :=
    if String.eqb ref EmptyString then base
    else if negb (String.prefix "/" ref)
    then String.substring 0 (Z.to_nat (strings_LastIndexByte base "/" + 1)) base +:+ ref
    else ref in
  if String.eqb full EmptyString then EmptyString
  else if String.prefix "/" full then full
  else String "/" full.

Definition reduced_ResolveReference (u ref : url_URL) : url_URL :=
  let scheme := if String.eqb (Scheme ref) EmptyString then Scheme u else Scheme ref in
  if negb (String.eqb (Scheme ref) EmptyString) || negb (String.eqb (Host ref) EmptyString)
  then {| Scheme := scheme; Opaque := Opaque ref; Host := Host ref;
          Path := reduced_resolvePath (Path ref) EmptyString;
          RawQuery := RawQuery ref; Fragment := Fragment ref |}
  else if negb (String.eqb (Opaque ref) EmptyString)
  then {| Scheme := scheme; Opaque := Opaque ref; Host := EmptyString; Path := EmptyString;
          RawQuery := RawQuery ref; Fragment := Fragment ref |}
  else
    let inherit := String.eqb (Path ref) EmptyString && String.eqb (RawQuery ref) EmptyString in
    let query := if inherit then RawQuery u else RawQuery ref in
    let fragment :=
      if inherit && String.eqb (Fragment ref) EmptyString then Fragment u else Fragment ref in
    if String.eqb (Path ref) EmptyString && negb (String.eqb (Opaque u) EmptyString)
    then {| Scheme := scheme; Opaque := Opaque u; Host := EmptyString; Path := EmptyString;
            RawQuery := query; Fragment := fragment |}
    else {| Scheme := scheme; Opaque := EmptyString; Host := Host u;
            Path := reduced_resolvePath (Path u) (Path ref);
            RawQuery := query; Fragment := fragment |}.

Definition reduced_String (u : url_URL) : string :=
  let nonempty s := negb (String.eqb s EmptyString) in
  (if nonempty (Scheme u) then Scheme u +:+ ":" else EmptyString)
  +:+ (if nonempty (Opaque u) then Opaque u
       else
         (if nonempty (Scheme u) || nonempty (Host u)
          then (if nonempty (Host u) || nonempty (Path u) then "//" else EmptyString)
               +:+ Host u
          else EmptyString)
         +:+ (if nonempty (Path u) && negb (String.prefix "/" (Path u)) && nonempty (Host u)
              then "/" else EmptyString)
         +:+ Path u)
  +:+ (if nonempty (RawQuery u) then "?" +:+ RawQuery u else EmptyString)
  +:+ (if nonempty (Fragment u) then "#" +:+ Fragment u else EmptyString).

(** *** A reduced decoding into ErrorResponse

    Bodies that are one JSON object whose members have for value a
    string of printable ASCII without quote or backslash, [null], a
    whole number of at most nine digits, or an object of the same
    kind.  Keys are matched with the field names in any letter case.
    At the top the members [Message] and [Response] are stored and
    every other member is skipped.  In an object stored into
    [Response] only the members [StatusCode] and [Request], with any
    value, and [Header], with the value [null], are read, [null]
    making the header map a nil map, which reads as an empty one; and
    in an object stored into [Request] only the members [Method], with
    any value, and [URL], with the value [null].  A value that does
    not fit its field
    leaves the field as it is and is reported in the error, the first
    such report being kept.  Any other body is reported as an error
    and changes nothing. *)

Definition plain_byte (c : ascii) : bool :=
  (32 <=? byte_code c) && (byte_code c <? 127)
  && negb (Ascii.eqb c quote) && negb (Ascii.eqb c "\").

(** A quoted string at the head of [s]: its text and what follows. *)
Fixpoint scan_text (s : string) : option (string * string) :=
  match s with
  | EmptyString => None
  | String c s' =>
      if Ascii.eqb c quote then Some (EmptyString, s')
      else if plain_byte c then
        match scan_text s' with
        | Some (text, rest) => Some (String c text, rest)
        | None => None
        end
      else None
  end.

Definition scan_string (s : string) : option (string * string) :=
  match json_skipSpace s with
  | String c s' => if Ascii.eqb c quote then scan_text s' else None
  | EmptyString => None
  end.

Definition expect (c : ascii) (s : string) : option string :=
  match json_skipSpace s with
  | String x s' => if Ascii.eqb x c then Some s' else None
  | EmptyString => None
  end.

(** The digits at the head of [s], and what follows. *)
Fixpoint scan_digits (s : string) : string * string :=
  match s with
  | String c s' =>
      if byte_in "0" "9" c
      then let '(digits, rest) := scan_digits s' in (String c digits, rest)
      else (EmptyString, s)
  | EmptyString => (EmptyString, s)
  end.

(** A whole number: one to nine digits, the first no zero unless it
    is the only one. *)
Definition scan_number (s : string) : option (Z * string) :=
  let '(digits, rest) := scan_digits s in
  let n := String.length digits in
  if Nat.leb 1 n && Nat.leb n 9 && negb (String.prefix "0" digits && Nat.leb 2 n)
  then Some (fst (Atoi digits), rest) else None.

#[local] Unset Elimination Schemes.

Inductive json_value : Type :=
  | json_string (text : string)
  | json_null
  | json_number (n : Z)
  | json_object (members : list (string * json_value)).

#[local] Set Elimination Schemes.

(** The members of an object after its opening brace, and what
    follows the closing one; [scan] reads one value. *)
Fixpoint scan_members (scan : string -> option (json_value * string))
    (fuel : nat) (s : string) : option (list (string * json_value) * string) :=
  match fuel with
  | O => None
  | S fuel' =>
      match scan_string s with
      | None => None
      | Some (key, s) =>
          match expect ":" s with
          | None => None
          | Some s =>
              match scan s with
              | None => None
              | Some (value, s) =>
                  match expect "," s, expect "}" s with
                  | Some s, _ =>
                      match scan_members scan fuel' s with
                      | Some (members, rest) => Some ((key, value) :: members, rest)
                      | None => None
                      end
                  | None, Some rest => Some ([(key, value)], rest)
                  | None, None => None
                  end
              end
          end
      end
  end.

(** A value at the head of [s], and what follows it. *)
Fixpoint scan_value (fuel : nat) (s : string) : option (json_value * string) :=
  match fuel with
  | O => None
  | S fuel' =>
      match json_skipSpace s with
      | EmptyString => None
      | String c s' =>
          if Ascii.eqb c quote then
            match scan_text s' with
            | Some (text, rest) => Some (json_string text, rest)
            | None => None
            end
          else if Ascii.eqb c "{" then
            match expect "}" s' with
            | Some rest => Some (json_object [], rest)
            | None =>
                match scan_members (scan_value fuel') fuel' s' with
                | Some (members, rest) => Some (json_object members, rest)
                | None => None
                end
            end
          else if byte_in "0" "9" c then
            match scan_number (String c s') with
            | Some (n, rest) => Some (json_number n, rest)
            | None => None
            end
          else
            match after_prefix "null" (String c s') with
            | Some rest => Some (json_null, rest)
            | None => None
            end
      end
  end.

(** The members of the object that [data] is. *)
Definition scan_object (data : string) : option (list (string * json_value)) :=
  match scan_value (2 * String.length data + 2) data with
  | Some (json_object members, rest) =>
      if String.eqb (json_skipSpace rest) EmptyString then Some members else None
  | _ => None
  end.

Fixpoint lower (s : string) : string :=
  match s with
  | EmptyString => EmptyString
  | String c s' => String (toLower c) (lower s')
  end.

Definition json_kind (v : json_value) : string :=
  match v with
  | json_string _ => "string"
  | json_null => "null"
  | json_number _ => "number"
  | json_object _ => "object"
  end.

Definition json_type_error (v : json_value) (field : string) : error :=
  errorString ("json: cannot unmarshal " +:+ json_kind v +:+ " into Go struct field " +:+ field).

(** The first error is the one kept. *)
Definition json_saveError (saved : option error) (err : error) : option error :=
  match saved with
  | Some _ => saved
  | None => Some err
  end.

(** What [new(http.Request)] points to. *)
Definition zero_Request : http_Request :=
  {| Method := EmptyString; URL := None; Request_Header := ∅;
     Request_Body := EmptyString; Close := false |}.

(** An object decoded into a [http.Request]; [None] for a member
    outside the reduced syntax. *)
Definition decode_Request (members : list (string * json_value))
    (q : http_Request) (saved : option error) : option (http_Request * option error) :=
  fold_left
    (fun state '(key, value) =>
       match state with
       | None => None
       | Some (q, saved) =>
           if String.eqb (lower key) "method" then
             match value with
             | json_string text =>
                 Some ({| Method := text; URL := URL q; Request_Header := Request_Header q;
                          Request_Body := Request_Body q; Close := Close q |}, saved)
             | json_null => Some (q, saved)
             | _ => Some (q, json_saveError saved (json_type_error value "Request.Method"))
             end
           else if String.eqb (lower key) "url" then
             match value with
             | json_null =>
                 Some ({| Method := Method q; URL := None; Request_Header := Request_Header q;
                          Request_Body := Request_Body q; Close := Close q |}, saved)
             | _ => None
             end
           else None
       end)
    members (Some (q, saved)).

(** An object decoded into a [http.Response]; [None] for a member
    outside the reduced syntax. *)
Definition decode_Response (members : list (string * json_value))
    (r : http_Response) (saved : option error) : option (http_Response * option error) :=
  fold_left
    (fun state '(key, value) =>
       match state with
       | None => None
       | Some (r, saved) =>
           if String.eqb (lower key) "statuscode" then
             match value with
             | json_number n =>
                 Some ({| StatusCode := n; Header := Header r; Request := Request r |}, saved)
             | json_null => Some (r, saved)
             | _ => Some (r, json_saveError saved (json_type_error value "Response.StatusCode"))
             end
           else if String.eqb (lower key) "request" then
             match value with
             | json_null =>
                 Some ({| StatusCode := StatusCode r; Header := Header r; Request := None |},
                       saved)
             | json_object members =>
                 match decode_Request members (default zero_Request (Request r)) saved with
                 | Some (q, saved) =>
                     Some ({| StatusCode := StatusCode r; Header := Header r;
                              Request := Some q |}, saved)
                 | None => None
                 end
             | _ =>
                 (* a nil pointer is filled before the value is found not to fit *)
                 Some ({| StatusCode := StatusCode r; Header := Header r;
                          Request := Some (default zero_Request (Request r)) |},
                       json_saveError saved (json_type_error value "Response.Request"))
             end
           else if String.eqb (lower key) "header" then
             match value with
             | json_null =>
                 Some ({| StatusCode := StatusCode r; Header := ∅; Request := Request r |},
                       saved)
             | _ => None
             end
           else None
       end)
    members (Some (r, saved)).

(** Where [errorResponse.Response] points while the decoding goes on:
    nowhere, still to the response it was given with, or to a response
    that the decoding has made. *)
Inductive Response_pointer : Type :=
  | to_nil
  | to_given
  | to_new (r : http_Response).

Record decoding : Type := mk_decoding {
  given : http_Response;
  pointer : Response_pointer;
  message : string;
  saved : option error
}.

Definition decode_member (state : option decoding) (member : string * json_value)
    : option decoding :=
  match state with
  | None => None
  | Some d =>
      let '(key, value) := member in
      if String.eqb (lower key) "message" then
        match value with
        | json_string text =>
            Some {| given := given d; pointer := pointer d; message := text;
                    saved := saved d |}
        | json_null => Some d
        | _ =>
            Some {| given := given d; pointer := pointer d; message := message d;
                    saved := json_saveError (saved d)
                               (json_type_error value "ErrorResponse.Message") |}
        end
      else if String.eqb (lower key) "response" then
        match value with
        | json_null =>
            Some {| given := given d; pointer := to_nil; message := message d;
                    saved := saved d |}
        | json_object members =>
            match pointer d with
            | to_given =>
                match decode_Response members (given d) (saved d) with
                | Some (r, saved) =>
                    Some {| given := r; pointer := to_given; message := message d;
                            saved := saved |}
                | None => None
                end
            | to_new r =>
                match decode_Response members r (saved d) with
                | Some (r, saved) =>
                    Some {| given := given d; pointer := to_new r; message := message d;
                            saved := saved |}
                | None => None
                end
            | to_nil =>
                match decode_Response members zero_Response (saved d) with
                | Some (r, saved) =>
                    Some {| given := given d; pointer := to_new r; message := message d;
                            saved := saved |}
                | None => None
                end
            end
        | _ =>
            (* a nil pointer is filled before the value is found not to fit *)
            Some {| given := given d;
                    pointer := match pointer d with
                               | to_nil => to_new zero_Response
                               | p => p
                               end;
                    message := message d;
                    saved := json_saveError (saved d)
                               (json_type_error value "ErrorResponse.Response") |}
        end
      else Some d
  end.

Definition reduced_Unmarshal (data : string) (r : http_Response) (e : ErrorResponse)
    : http_Response * ErrorResponse * option error :=
  let outside := (r, e, Some (errorString "json: outside the reduced syntax")) in
  match scan_object data with
  | None => outside
  | Some members =>
      let start :=
        {| given := r;
           pointer := match ErrorResponse_Response e with
                      | Some _ => to_given
                      | None => to_nil
                      end;
           message := Message e; saved := None |} in
      match fold_left decode_member members (Some start) with
      | None => outside
      | Some d =>
          (given d,
           {| ErrorResponse_Response :=
                match pointer d with
                | to_nil => None
                | to_given => Some (given d)
                | to_new r => Some r
                end;
              Message := message d |},
           saved d)
      end
  end.

(** A destination whose type has no exported field, such as
    [*bytes.Buffer] or [*os.File]: an object or [null] decodes into it
    and changes nothing, any other value does not fit.  Reduced to the
    objects [scan_object] reads. *)
Definition opaque_Target (T : Type) : json_Target T :=
  fun r v =>
    let '(r, data, err) := ioutil_ReadAll r in
    match err, scan_object data, after_prefix "null" (json_skipSpace data) with
    | Some e, _, _ => (r, v, Some e)
    | None, Some _, _ | None, _, Some _ => (r, v, None)
    | None, None, None => (r, v, Some (errorString "json: cannot decode into Go value"))
    end.

(** ** The reading of a rate-limit header, in the words of the specification *)

(** The number that the digits at the head of [s] denote, counted on
    from [acc], and what follows them. *)
Fixpoint digit_run (s : string) (acc : Z) : Z * string :=
  match s with
  | EmptyString => (acc, s)
  | String c s' =>
      if byte_in "0" "9" c then digit_run s' (acc * 10 + (byte_code c - 48)) else (acc, s)
  end.

Definition negative (s : string) : bool :=
  match s with
  | String c _ => Ascii.eqb c "-"
  | EmptyString => false
  end.

Definition unsigned (s : string) : string :=
  match s with
  | String c s' => if Ascii.eqb c "+" || Ascii.eqb c "-" then s' else s
  | EmptyString => s
  end.

(** A valid integer: an optional sign, then digits and nothing else. *)
Definition numeral (s : string) : option Z :=
  match unsigned s with
  | EmptyString => None
  | digits =>
      match digit_run digits 0 with
      | (n, EmptyString) => Some (if negative s then - n else n)
      | _ => None
      end
  end.

Definition in_int64 (n : Z) : bool := (- 2 ^ 63 <=? n) && (n <? 2 ^ 63).

(** The digits at the head of the value pass the 64-bit range. *)
Definition overflows (s : string) : bool :=
  2 ^ 64 - 1 <? fst (digit_run (unsigned s) 0).

Definition int64_bound (s : string) : Z :=
  if negative s then - 2 ^ 63 else 2 ^ 63 - 1.

(** What a count header stands for: the integer it spells; zero when it
    is absent or spells none; and the bound of the [int64] range on its
    side when its digits leave that range. *)
Definition header_count (value : string) : Z :=
  if overflows value then int64_bound value
  else
    match numeral value with
    | Some n => if in_int64 n then n else int64_bound value
    | None => 0
    end.

(** The reset time likewise, zero seconds standing for no time. *)
Definition header_reset (value : string) : Timestamp :=
  let v := header_count value in
  if v =? 0 then {| Time := time_zero |} else {| Time := time_Unix v |}.

(** ** Values for the worked examples *)

Definition example_BaseURL : url_URL :=
  {| Scheme := "https"; Opaque := EmptyString; Host := "api.packet.net"; Path := "/";
     RawQuery := EmptyString; Fragment := EmptyString |}.

(** A client over a transport that answers every request with [rt],
    holding the rate of an earlier exchange. *)
Definition example_Client (rt : http_Request -> RoundTrip) : Client :=
  {| client := rt; BaseURL := example_BaseURL; UserAgent := userAgent;
     ConsumerToken := "consumer"; ApiKey := "key";
     RateLimit := {| RequestLimit := 60; RequestsRemaining := 7;
                     Reset := {| Time := time_Unix 1700000000 |} |} |}.

Definition example_URL : url_URL :=
  {| Scheme := "https"; Opaque := EmptyString; Host := "api.packet.net";
     Path := "/plans"; RawQuery := EmptyString; Fragment := EmptyString |}.

Definition example_Request : http_Request :=
  {| Method := "GET"; URL := Some example_URL;
     Request_Header := ∅; Request_Body := EmptyString; Close := true |}.

(** A header set built by [Add], field after field. *)
Definition example_Header (fields : list (string * string)) : http_Header :=
  fold_left (fun h '(key, v) => Header_Add h key v) fields ∅.

Definition example_Response (status : Z) (h : http_Header) : http_Response :=
  {| StatusCode := status; Header := h; Request := Some example_Request |}.

Definition example_Body (chunks : list string) : ReadCloser :=
  {| pending := chunks; failure := None; closed := false |}.

(** The rate headers of a response that advertises 99 of 100 requests. *)
Definition example_rate_Header : http_Header :=
  example_Header [("X-RateLimit-Limit", "100"); ("X-RateLimit-Remaining", "99")]%string.

(** The rate headers of a response that also tells the reset time. *)
Definition example_reset_Header : http_Header :=
  example_Header [("X-RateLimit-Limit", "100"); ("X-RateLimit-Remaining", "99");
                  ("X-RateLimit-Reset", "1700000000")]%string.

(** The body [{"message":"invalid hostname"}] of an error response. *)
Definition example_error_text : string :=
  "{" +:+ quoted "message" +:+ ":" +:+ quoted "invalid hostname" +:+ "}".

(** The body [{"response":null}]. *)
Definition example_null_text : string :=
  "{" +:+ quoted "response" +:+ ":null}".

(** The body [{"response":{"Request":null}}]. *)
Definition example_no_Request_text : string :=
  "{" +:+ quoted "response" +:+ ":{" +:+ quoted "Request" +:+ ":null}}".

(** The body [{"response":{"StatusCode":200,"Header":null}}]. *)
Definition example_rewriting_text : string :=
  "{" +:+ quoted "response" +:+ ":{" +:+ quoted "StatusCode" +:+ ":200,"
  +:+ quoted "Header" +:+ ":null}}".

(** A transport that answers every request with the same response. *)
Definition answering (status : Z) (h : http_Header) (chunks : list string) : http_Client :=
  fun _ => Responded (example_Response status h) (example_Body chunks).

(** A transport that cannot connect. *)
Definition refusing : http_Client :=
  fun _ => Failed None (errorString "dial tcp: connection refused").


(** [http.DefaultClient.Do] without a network: a round tripper that
    is a function answers, and with no transport or a [http.Transport]
    the client cannot connect. *)
Definition reduced_Client_Do (now : net_http) (req : http_Request) : RoundTrip :=
  match Transport (DefaultClient now) with
  | a_RoundTripper rt => rt req
  | nil_RoundTripper | ptr_Transport _ => refusing req
  end.

(** ** packngo: the functions *)

Section packngo.

Set Default Proof Using "Type".

(** [url.Parse], [url.URL.ResolveReference], [url.URL.String]. *)
Variable url_Parse : string -> url_URL + error.
Variable url_ResolveReference : url_URL -> url_URL -> url_URL.
Variable url_String : url_URL -> string.

(** [json.Unmarshal(data, errorResponse)], for an [errorResponse]
    whose [Response] points to the response [r].  The whole structure
    is handed over, both of its fields are exported and neither
    carries a tag, so the decoding is free to rewrite either: it can
    store a message, it can write through [Response] into [r], and it
    can set [Response] to nil or, from nil, to a response of its own
    making.  The result is [r] as the decoding leaves it, the
    structure as it leaves it, and the error. *)
Variable json_Unmarshal :
  string -> http_Response -> ErrorResponse -> http_Response * ErrorResponse * option error.

(** [http.DefaultClient.Do], given the state [net/http] is in. *)
Variable http_Client_Do : net_http -> http_Request -> RoundTrip.

(** [Error]: the operands are evaluated from the left, and the first
    of them dereferences [r.Response] and [r.Response.Request]. *)
Definition Error (r : ErrorResponse) : or_panic string :=
  match ErrorResponse_Response r with
  | None => panic_nil_dereference
  | Some response =>
      match Request response with
      | None => panic_nil_dereference
      | Some request =>
          done (fmt_Sprintf "%v %v: %d %v"
                  [fmt_string (Method request);
                   fmt_Stringer (option_map url_String (URL request));
                   fmt_int (StatusCode response);
                   fmt_string (Message r)])
      end
  end.

(** [http.NewRequest(method, urlStr, body)]; the method is quoted in
    the error as [%q] quotes a text without quote or escape. *)
Definition http_NewRequest (method urlStr : string) (body : string)
    : http_Request + error :=
  let method := if String.eqb method EmptyString then "GET"%string else method in
  if negb (validMethod method)
  then inr (errorString ("net/http: invalid method " +:+ quoted method))
  else
    match url_Parse urlStr with
    | inr err => inr err
    | inl u =>
        let u := {| Scheme := Scheme u; Opaque := Opaque u;
                    Host := removeEmptyPort (Host u); Path := Path u;
                    RawQuery := RawQuery u; Fragment := Fragment u |} in
        inl {| Method := method; URL := Some u; Request_Header := ∅;
               Request_Body := body; Close := false |}
    end.

(** [req.Close = true] and the five [req.Header.Add]. *)
Definition request_setup (c : Client) (req : http_Request) : http_Request :=
  let h := Request_Header req in
  let h := Header_Add h "X-Auth-Token" (ApiKey c) in
  let h := Header_Add h "X-Consumer-Token" (ConsumerToken c) in
  let h := Header_Add h "Content-Type" mediaType in
  let h := Header_Add h "Accept" mediaType in
  let h := Header_Add h "User-Agent" userAgent in
  {| Method := Method req; URL := URL req; Request_Header := h;
     Request_Body := Request_Body req; Close := true |}.

Definition NewRequest (c : Client) (method path : string) (body : payload)
    : option http_Request * option error :=
  match url_Parse path with
  | inr err => (None, Some err)
  | inl rel =>
      let u := url_ResolveReference (BaseURL c) rel in
      let buf := EmptyString in
      let encoded :=
        match body with
        | nil_payload => inl buf
        | some_payload b => json_Encode buf b
        end in
      match encoded with
      | inr err => (None, Some err)
      | inl buf =>
          match http_NewRequest method (url_String u) buf with
          | inr err => (None, Some err)
          | inl req => (Some (request_setup c req), None)
          end
      end
  end.

(** [CheckResponse(r)], with the stream [r.Body]: the response [r]
    points to as the call leaves it, the stream as it leaves it, and
    the error. *)
Definition CheckResponse (r : http_Response) (body : ReadCloser)
    : http_Response * ReadCloser * option error :=
  let c := StatusCode r in
  if (200 <=? c) && (c <=? 299) then (r, body, None)
  else
    let errorResponse := {| ErrorResponse_Response := Some r; Message := EmptyString |} in
    let '(body, data, err) := ioutil_ReadAll body in
    let '(r, errorResponse) :=
      match err with
      | None =>
          if 0 <? len data then fst (json_Unmarshal data r errorResponse)
          else (r, errorResponse)
      | Some _ => (r, errorResponse)
      end in
    (r, body, Some (ptr_ErrorResponse errorResponse)).

Definition Do (c : Client) (req : http_Request) (v : destination) : Do_result :=
  match client c req with
  | Failed _ err =>
      {| after_c := c; after_v := v; after_Body := None; returned := (None, Some err) |}
  | Responded resp body =>
      (* defer resp.Body.Close() *)
      let leave c v body ret :=
        {| after_c := c; after_v := v; after_Body := Some (Body_Close body);
           returned := ret |} in
      let response := populateRate (fresh resp) in
      let c := set_RateLimit c (Response_Rate response) in
      let '(resp, body, err) := CheckResponse resp body in
      (* response.Response is the pointer resp: the wrapper shows
         the response as CheckResponse leaves it *)
      let response :=
        {| Response_Response := resp; Response_Rate := Response_Rate response |} in
      match err with
      | Some _ => leave c v body (Some response, err)
      | None =>
          match v with
          | nil_destination => leave c v body (Some response, err)
          | a_destination writer target t =>
              match writer with
              | Some w =>
                  let '(t, body, _, _) := @io_Copy _ w t body in
                  leave c (a_destination writer target t) body (Some response, err)
              | None =>
                  let '(body, t, err) := @json_Decode _ target body t in
                  match err with
                  | Some _ => leave c (a_destination writer target t) body (Some response, err)
                  | None => leave c (a_destination writer target t) body (Some response, err)
                  end
              end
          end
      end
  end.

(** [NewClient], run in the state [http] of [net/http]: the state as
    the call leaves it, and the client built.  The client keeps the
    pointer [http.DefaultClient], not a copy of the struct, so it is
    given for the state [now] in which [net/http] is when the client
    is used.  The literal [&http.Transport{...}] is a new object, at
    the first address not yet taken.  The error of [url.Parse] is
    dropped, and the [BaseURL] is nil if there is one. *)
Definition NewClient (http : net_http) (consumerToken apiKey : string)
    : net_http * (net_http -> built_Client) :=
  let httpClient now := http_Client_Do now in
  let c now BaseURL :=
    {| client := httpClient now; BaseURL := BaseURL; UserAgent := userAgent;
       ConsumerToken := consumerToken; ApiKey := apiKey; RateLimit := Rate_zero |} in
  let cfg := {| InsecureSkipVerify := true |} in
  let transport := length (Transports http) in
  let http :=
    {| DefaultClient :=
         {| Transport := ptr_Transport transport;
            Timeout := Timeout (DefaultClient http) |};
       Transports := Transports http ++ [{| TLSClientConfig := Some cfg |}] |} in
  (http,
   fun now =>
     match url_Parse baseURL with
     | inl u => with_BaseURL (c now u)
     | inr _ => nil_BaseURL (c now)
     end).

(** * Properties *)

(** Case analysis on every comparison of the goal. *)
Ltac case_compare :=
  repeat match goal with
    | |- context [Z.leb ?a ?b] => destruct (Z.leb_spec a b)
    | |- context [Z.ltb ?a ?b] => destruct (Z.ltb_spec a b)
    end.

(** ** strconv against the reading of a header *)

Lemma byte_code_range (c : ascii) : 0 <= byte_code c < 256.
Proof.
  unfold byte_code. pose proof (N_ascii_bounded c) as Hb. lia.
Qed.

Lemma byte_code_0 : byte_code "0" = 48.
Proof. reflexivity. Qed.

Lemma byte_in_digit (c : ascii) :
  byte_in "0" "9" c = true <-> 48 <= byte_code c <= 57.
Proof.
  unfold byte_in. change (byte_code "0") with 48. change (byte_code "9") with 57.
  rewrite andb_true_iff, !Z.leb_le. tauto.
Qed.

Lemma byte_in_digit_false (c : ascii) :
  byte_in "0" "9" c = false <-> byte_code c < 48 \/ 57 < byte_code c.
Proof.
  unfold byte_in. change (byte_code "0") with 48. change (byte_code "9") with 57.
  rewrite andb_false_iff, !Z.leb_gt. tauto.
Qed.

Lemma digit_run_ge (s : string) : forall acc, 0 <= acc -> acc <= fst (digit_run s acc).
Proof.
  induction s as [|c s IH]; intros acc Hacc; simpl; [lia|].
  destruct (byte_in "0" "9" c) eqn:Hd; simpl; [|lia].
  apply byte_in_digit in Hd.
  etransitivity; [|apply IH]; lia.
Qed.

Lemma two_64 : 2 ^ 64 = 18446744073709551616.
Proof. reflexivity. Qed.

Lemma ParseUint_loop_run (s : string) : forall n,
  0 <= n <= 2 ^ 64 - 1 ->
  ParseUint_loop (2 ^ 64 - 1) s n =
    let '(v, rest) := digit_run s n in
    if 2 ^ 64 - 1 <? v then (2 ^ 64 - 1, Some ErrRange)
    else match rest with
         | EmptyString => (v, None)
         | _ => (0, Some ErrSyntax)
         end.
Proof.
  induction s as [|c s IH]; intros n Hn.
  - simpl. destruct (Z.ltb_spec (2 ^ 64 - 1) n); [lia|reflexivity].
  - cbn [ParseUint_loop digit_run].
    destruct (byte_in "0" "9" c) eqn:Hd.
    + apply byte_in_digit in Hd. rewrite byte_code_0.
      pose proof (digit_run_ge s (n * 10 + (byte_code c - 48))) as Hge.
      destruct (digit_run s (n * 10 + (byte_code c - 48))) as [v rest] eqn:Hrun.
      simpl in Hge. rewrite two_64 in *.
      change ((18446744073709551616 - 1) / 10 + 1) with 1844674407370955162.
      destruct (Z.leb_spec 1844674407370955162 n) as [Hc|Hc].
      * destruct (Z.ltb_spec (18446744073709551616 - 1) v); [reflexivity|lia].
      * rewrite (Z.mod_small (n * 10)) by lia.
        destruct (Z.le_gt_cases 18446744073709551616 (n * 10 + (byte_code c - 48))) as [Hw|Hw].
        -- replace ((n * 10 + (byte_code c - 48)) mod 18446744073709551616)
             with (n * 10 + (byte_code c - 48) - 18446744073709551616).
           2:{ apply Z.mod_unique with 1; lia. }
           destruct (Z.ltb_spec (n * 10 + (byte_code c - 48) - 18446744073709551616) (n * 10));
             [|lia].
           simpl. destruct (Z.ltb_spec (18446744073709551616 - 1) v); [reflexivity|lia].
        -- rewrite (Z.mod_small (n * 10 + (byte_code c - 48))) by lia.
           destruct (Z.ltb_spec (n * 10 + (byte_code c - 48)) (n * 10)); [lia|].
           destruct (Z.ltb_spec (18446744073709551616 - 1) (n * 10 + (byte_code c - 48)));
             [lia|].
           simpl. rewrite IH by lia. rewrite Hrun. reflexivity.
    + destruct (Z.ltb_spec (2 ^ 64 - 1) n); [lia|reflexivity].
Qed.

Lemma unsigned_cons (c : ascii) (s : string) :
  (if Ascii.eqb c "+" || Ascii.eqb c "-" then s else String c s) = unsigned (String c s).
Proof. reflexivity. Qed.

Lemma ParseInt_count (s : string) (bitSize : Z) :
  bitSize = 0 \/ bitSize = 64 -> fst (ParseInt s bitSize) = header_count s.
Proof.
  intros Hbits.
  assert (Hsize : (if bitSize =? 0 then IntSize else bitSize) = 64)
    by (destruct Hbits; subst; reflexivity).
  destruct s as [|c0 s']; [reflexivity|].
  unfold ParseInt, header_count, overflows, numeral, int64_bound, in_int64.
  rewrite unsigned_cons. cbn [negative].
  set (s1 := unsigned (String c0 s')).
  unfold ParseUint. rewrite !Hsize.
  destruct s1 as [|c1 s1'] eqn:Hs1; [reflexivity|].
  rewrite ParseUint_loop_run by (rewrite two_64; lia).
  pose proof (digit_run_ge (String c1 s1') 0 ltac:(lia)) as Hge.
  destruct (digit_run (String c1 s1') 0) as [v rest] eqn:Hrun.
  cbn [fst] in *. change (64 - 1) with 63.
  change (2 ^ 64) with 18446744073709551616 in *.
  change (2 ^ 63) with 9223372036854775808 in *.
  destruct (Z.ltb_spec (18446744073709551616 - 1) v) as [Hov|Hov].
  - destruct (Ascii.eqb c0 "-"); cbn [negb andb].
    + case_compare; cbn [fst]; lia.
    + case_compare; cbn [fst]; lia.
  - destruct rest as [|r rest']; [|reflexivity].
    destruct (Ascii.eqb c0 "-"); cbn [negb andb].
    + case_compare; cbn [fst andb]; lia.
    + case_compare; cbn [fst andb]; lia.
Qed.

Lemma Atoi_digits_run (s : string) : forall n,
  Atoi_digits s n =
    match digit_run s n with
    | (v, EmptyString) => Some v
    | _ => None
    end.
Proof.
  induction s as [|c s IH]; intros n; [reflexivity|].
  cbn [Atoi_digits digit_run]. rewrite byte_code_0.
  pose proof (byte_code_range c) as Hc.
  destruct (byte_in "0" "9" c) eqn:Hd.
  - apply byte_in_digit in Hd.
    rewrite (Z.mod_small (byte_code c - 48)) by lia.
    destruct (Z.ltb_spec 9 (byte_code c - 48)); [lia|]. apply IH.
  - apply byte_in_digit_false in Hd.
    destruct (Z.ltb_spec 9 ((byte_code c - 48) mod 256)) as [|Hle]; [reflexivity|].
    exfalso. destruct Hd as [Hd|Hd].
    + replace ((byte_code c - 48) mod 256) with (byte_code c - 48 + 256) in Hle.
      * lia.
      * apply Z.mod_unique with (-1); lia.
    + rewrite Z.mod_small in Hle by lia. lia.
Qed.

Lemma len_cons (c : ascii) (s : string) : len (String c s) = len s + 1.
Proof. unfold len. cbn [String.length]. lia. Qed.

Lemma len_nonneg (s : string) : 0 <= len s.
Proof. unfold len. lia. Qed.

Lemma digit_run_lt (s : string) : forall acc,
  0 <= acc -> fst (digit_run s acc) < (acc + 1) * 10 ^ len s.
Proof.
  induction s as [|c s IH]; intros acc Hacc.
  - cbn [digit_run fst]. change (len EmptyString) with 0. rewrite Z.pow_0_r. lia.
  - rewrite len_cons, Z.pow_add_r, Z.pow_1_r by (pose proof (len_nonneg s); lia).
    pose proof (Z.pow_pos_nonneg 10 (len s) ltac:(lia) (len_nonneg s)) as Hpow.
    cbn [digit_run]. destruct (byte_in "0" "9" c) eqn:Hd.
    + apply byte_in_digit in Hd.
      specialize (IH (acc * 10 + (byte_code c - 48)) ltac:(lia)). nia.
    + cbn [fst]. nia.
Qed.

Lemma digit_run_short (s : string) :
  len s <= 18 -> fst (digit_run s 0) < 10 ^ 18.
Proof.
  intros Hlen. pose proof (digit_run_lt s 0 ltac:(lia)) as Hlt.
  pose proof (Z.pow_le_mono_r 10 (len s) 18 ltac:(lia) Hlen). lia.
Qed.

Lemma Atoi_count (s : string) : fst (Atoi s) = header_count s.
Proof.
  unfold Atoi.
  destruct ((0 <? len s) && (len s <? 19)) eqn:Hfast; [|apply ParseInt_count; auto].
  apply andb_true_iff in Hfast as [_ Hlen]. apply Z.ltb_lt in Hlen.
  destruct s as [|c0 s']; [reflexivity|]. rewrite len_cons in Hlen.
  assert (Hsigned : Ascii.eqb c0 "-" || Ascii.eqb c0 "+" = Ascii.eqb c0 "+" || Ascii.eqb c0 "-")
    by apply orb_comm.
  rewrite Hsigned, unsigned_cons.
  unfold header_count, overflows, numeral, int64_bound, in_int64. cbn [negative].
  assert (Hshort : len (unsigned (String c0 s')) <= 18).
  { cbn [unsigned]. destruct (Ascii.eqb c0 "+" || Ascii.eqb c0 "-"); [|rewrite len_cons]; lia. }
  assert (Hempty : Ascii.eqb c0 "+" || Ascii.eqb c0 "-" = false ->
                   unsigned (String c0 s') <> EmptyString).
  { intros Hs. cbn [unsigned]. rewrite Hs. discriminate. }
  set (s1 := unsigned (String c0 s')) in *. clearbody s1.
  pose proof (digit_run_short s1 Hshort) as Hv.
  pose proof (digit_run_ge s1 0 ltac:(lia)) as Hge.
  rewrite Atoi_digits_run.
  change (10 ^ 18) with 1000000000000000000 in Hv.
  change (2 ^ 64) with 18446744073709551616.
  change (2 ^ 63) with 9223372036854775808.
  destruct s1 as [|c1 s1'].
  - destruct (Ascii.eqb c0 "+" || Ascii.eqb c0 "-") eqn:Hs; [reflexivity|].
    exfalso. now apply Hempty.
  - assert (Hone : (len (String c1 s1') <? 1) = false).
    { apply Z.ltb_ge. rewrite len_cons. pose proof (len_nonneg s1'). lia. }
    rewrite Hone, andb_false_r.
    destruct (digit_run (String c1 s1') 0) as [v rest]. cbn [fst] in *.
    destruct (Z.ltb_spec (18446744073709551616 - 1) v); [lia|].
    destruct rest as [|r rest']; [|reflexivity].
    destruct (Ascii.eqb c0 "-"); case_compare; cbn [fst andb]; lia.
Qed.

Lemma populateRate_Rate (r : Response) :
  let h := Header (Response_Response r) in
  let limit := Header_Get h headerRateLimit in
  let remaining := Header_Get h headerRateRemaining in
  let reset := Header_Get h headerRateReset in
  Response_Rate (populateRate r) =
    {| RequestLimit :=
         if String.eqb limit EmptyString then RequestLimit (Response_Rate r)
         else header_count limit;
       RequestsRemaining :=
         if String.eqb remaining EmptyString then RequestsRemaining (Response_Rate r)
         else header_count remaining;
       Reset :=
         if header_count reset =? 0 then Reset (Response_Rate r)
         else {| Time := time_Unix (header_count reset) |} |}.
Proof.
  unfold populateRate. cbn [Response_Rate Response_Response].
  rewrite !Atoi_count, (ParseInt_count _ 64) by auto.
  destruct (Response_Rate r) as [l m t].
  destruct (String.eqb_spec (Header_Get (Header (Response_Response r)) headerRateLimit)
              EmptyString);
    destruct (String.eqb_spec (Header_Get (Header (Response_Response r)) headerRateRemaining)
                EmptyString);
    destruct (String.eqb_spec (Header_Get (Header (Response_Response r)) headerRateReset)
                EmptyString) as [Hreset|Hreset];
    try rewrite Hreset; cbn;
    try destruct (header_count (Header_Get (Header (Response_Response r)) headerRateReset) =? 0);
    reflexivity.
Qed.

Lemma populateRate_Response (r : Response) :
  Response_Response (populateRate r) = Response_Response r.
Proof. reflexivity. Qed.

Lemma populateRate_fresh (resp : http_Response) :
  Response_Rate (populateRate (fresh resp)) =
    {| RequestLimit := header_count (Header_Get (Header resp) headerRateLimit);
       RequestsRemaining := header_count (Header_Get (Header resp) headerRateRemaining);
       Reset := header_reset (Header_Get (Header resp) headerRateReset) |}.
Proof.
  rewrite populateRate_Rate. cbn [fresh Response_Response Response_Rate Rate_zero
    RequestLimit RequestsRemaining Reset]. unfold header_reset.
  f_equal.
  - destruct (String.eqb_spec (Header_Get (Header resp) headerRateLimit) EmptyString) as [->|];
      reflexivity.
  - destruct (String.eqb_spec (Header_Get (Header resp) headerRateRemaining) EmptyString) as [->|];
      reflexivity.
Qed.

Lemma numeral_run (s : string) (n : Z) :
  numeral s = Some n ->
  snd (digit_run (unsigned s) 0) = EmptyString
  /\ n = (if negative s then - fst (digit_run (unsigned s) 0) else fst (digit_run (unsigned s) 0)).
Proof.
  unfold numeral. destruct (unsigned s) as [|c u] eqn:Hu; [discriminate|].
  destruct (digit_run (String c u) 0) as [v rest]. destruct rest; [|discriminate].
  intros [= <-]. split; reflexivity.
Qed.

Lemma header_count_numeral (s : string) (n : Z) :
  numeral s = Some n -> - 2 ^ 63 <= n < 2 ^ 63 -> header_count s = n.
Proof.
  intros Hnum Hn. unfold header_count, overflows, in_int64. rewrite Hnum.
  apply numeral_run in Hnum as [_ Hv].
  pose proof (digit_run_ge (unsigned s) 0 ltac:(lia)) as Hge.
  change (2 ^ 64) with 18446744073709551616.
  change (2 ^ 63) with 9223372036854775808 in *.
  destruct (negative s); case_compare; cbn [andb]; lia.
Qed.

Lemma header_count_no_numeral (s : string) :
  numeral s = None -> overflows s = false -> header_count s = 0.
Proof. intros Hnum Hov. unfold header_count. now rewrite Hov, Hnum. Qed.

Lemma header_count_overflows (s : string) :
  overflows s = true -> header_count s = int64_bound s.
Proof. intros Hov. unfold header_count. now rewrite Hov. Qed.

Lemma digit_run_rest (s : string) : forall acc,
  0 <= acc ->
  len (snd (digit_run s acc)) <= len s
  /\ fst (digit_run s acc) < (acc + 1) * 10 ^ (len s - len (snd (digit_run s acc))).
Proof.
  induction s as [|c s IH]; intros acc Hacc.
  - cbn [digit_run fst snd]. rewrite Z.sub_diag, Z.pow_0_r. lia.
  - cbn [digit_run]. destruct (byte_in "0" "9" c) eqn:Hd.
    + apply byte_in_digit in Hd.
      destruct (IH (acc * 10 + (byte_code c - 48)) ltac:(lia)) as [Hlen Hlt].
      rewrite len_cons. split; [lia|].
      replace (len s + 1 - len (snd (digit_run s (acc * 10 + (byte_code c - 48)))))
        with (len s - len (snd (digit_run s (acc * 10 + (byte_code c - 48)))) + 1) by lia.
      rewrite Z.pow_add_r, Z.pow_1_r by lia.
      pose proof (Z.pow_pos_nonneg 10
        (len s - len (snd (digit_run s (acc * 10 + (byte_code c - 48))))) ltac:(lia) ltac:(lia)).
      nia.
    + cbn [fst snd]. rewrite Z.sub_diag, Z.pow_0_r. lia.
Qed.

Lemma no_numeral_short (s : string) :
  numeral s = None -> len s <= 19 -> overflows s = false.
Proof.
  intros Hnum Hlen. unfold overflows. apply Z.ltb_ge.
  assert (Hu : len (unsigned s) <= len s).
  { destruct s as [|c s']; [reflexivity|]. cbn [unsigned].
    destruct (Ascii.eqb c "+" || Ascii.eqb c "-"); rewrite ?len_cons; lia. }
  destruct (digit_run_rest (unsigned s) 0 ltac:(lia)) as [Hrest Hlt].
  assert (Hdigits : len (unsigned s) - len (snd (digit_run (unsigned s) 0)) <= 18).
  { unfold numeral in Hnum. destruct (unsigned s) as [|c u] eqn:Hus.
    - cbn. lia.
    - destruct (digit_run (String c u) 0) as [v rest]. destruct rest as [|r rest'];
        [discriminate|]. cbn [snd]. rewrite !len_cons in *. pose proof (len_nonneg rest'). lia. }
  pose proof (Z.pow_le_mono_r 10 _ 18 ltac:(lia) Hdigits) as Hpow.
  change (2 ^ 64) with 18446744073709551616.
  change (10 ^ 18) with 1000000000000000000 in Hpow. lia.
Qed.

(** *** FormatInt writes what the parsers read *)

Lemma digit_char_code (d : Z) :
  0 <= d <= 9 -> byte_code (digit_char d) = 48 + d.
Proof.
  intros Hd. unfold digit_char. rewrite byte_code_0. unfold byte_code.
  rewrite N_ascii_embedding by lia. lia.
Qed.

Lemma digit_run_digit_char (d : Z) (s : string) (acc : Z) :
  0 <= d <= 9 -> digit_run (String (digit_char d) s) acc = digit_run s (acc * 10 + d).
Proof.
  intros Hd. cbn [digit_run].
  pose proof (digit_char_code d Hd) as Hcode.
  destruct (byte_in "0" "9" (digit_char d)) eqn:Hin.
  - rewrite Hcode. f_equal. lia.
  - apply byte_in_digit_false in Hin. lia.
Qed.

Lemma mod_10_digit (u : Z) : 0 <= u mod 10 <= 9.
Proof. pose proof (Z.mod_pos_bound u 10 ltac:(lia)). lia. Qed.

Lemma formatBits_run (fuel : nat) : forall u acc,
  0 <= u < 2 ^ (Z.of_nat fuel + 1) ->
  exists p, u < p /\ 0 < p
    /\ forall k, digit_run (formatBits fuel u acc) k = digit_run acc (k * p + u).
Proof.
  induction fuel as [|fuel IH]; intros u acc Hu.
  - exists 10. change (2 ^ (Z.of_nat 0 + 1)) with 2 in Hu. split; [lia|]. split; [lia|].
    intros k. cbn [formatBits].
    rewrite digit_run_digit_char by apply mod_10_digit.
    rewrite Z.mod_small by lia. reflexivity.
  - cbn [formatBits]. destruct (Z.ltb_spec u 10) as [Hsmall|Hbig].
    + exists 10. split; [lia|]. split; [lia|]. intros k.
      rewrite digit_run_digit_char by apply mod_10_digit.
      rewrite Z.mod_small by lia. reflexivity.
    + assert (Hdiv : 0 <= u / 10 < 2 ^ (Z.of_nat fuel + 1)).
      { replace (Z.of_nat (S fuel) + 1) with (Z.succ (Z.of_nat fuel + 1)) in Hu by lia.
        rewrite Z.pow_succ_r in Hu by lia.
        split; [apply Z.div_pos; lia|].
        apply Z.div_lt_upper_bound; lia. }
      destruct (IH (u / 10) (String (digit_char (u mod 10)) acc) Hdiv) as (p & Hp & Hpos & Hrun).
      exists (p * 10). split; [|split; [lia|]].
      * pose proof (Z.div_mod u 10 ltac:(lia)). pose proof (Z.mod_pos_bound u 10 ltac:(lia)).
        lia.
      * intros k. rewrite Hrun.
        rewrite digit_run_digit_char by apply mod_10_digit.
        f_equal. pose proof (Z.div_mod u 10 ltac:(lia)). lia.
Qed.

Lemma formatBits_head (fuel : nat) (u : Z) (acc : string) :
  exists d s, 0 <= d <= 9 /\ formatBits fuel u acc = String (digit_char d) s.
Proof.
  revert u acc. induction fuel as [|fuel IH]; intros u acc.
  - exists (u mod 10), acc. split; [apply mod_10_digit|reflexivity].
  - cbn [formatBits]. destruct (u <? 10).
    + exists (u mod 10), acc. split; [apply mod_10_digit|reflexivity].
    + apply IH.
Qed.

Lemma log2_fuel (u : Z) : 0 <= u -> u < 2 ^ (Z.of_nat (Z.to_nat (Z.log2 u)) + 1).
Proof.
  intros Hu. rewrite Z2Nat.id by apply Z.log2_nonneg.
  destruct (Z.eq_dec u 0) as [->|Hne]; [reflexivity|].
  pose proof (Z.log2_spec u ltac:(lia)) as [_ Hlt].
  replace (Z.log2 u + 1) with (Z.succ (Z.log2 u)) by lia. exact Hlt.
Qed.

(** The decimal text of an integer is a valid integer, and it spells
    that integer. *)
Lemma numeral_FormatInt (i : Z) : numeral (FormatInt i) = Some i.
Proof.
  unfold FormatInt.
  set (fuel := Z.to_nat (Z.log2 (Z.abs i))).
  destruct (formatBits_run fuel (Z.abs i) EmptyString) as (p & _ & _ & Hrun).
  { split; [lia|]. apply log2_fuel. lia. }
  destruct (formatBits_head fuel (Z.abs i) EmptyString) as (d & s & Hd & Hhead).
  assert (Hplain : forall c, byte_in "0" "9" c = true ->
                   Ascii.eqb c "+" || Ascii.eqb c "-" = false).
  { intros c Hc. apply byte_in_digit in Hc.
    destruct (Ascii.eqb_spec c "+") as [Heq|_];
      [rewrite Heq in Hc; change (byte_code "+") with 43 in Hc; lia|].
    destruct (Ascii.eqb_spec c "-") as [Heq|_];
      [rewrite Heq in Hc; change (byte_code "-") with 45 in Hc; lia|]. reflexivity. }
  assert (Hdigit : byte_in "0" "9" (digit_char d) = true).
  { apply byte_in_digit. rewrite digit_char_code by exact Hd. lia. }
  specialize (Hrun 0). cbn [digit_run] in Hrun. rewrite Z.mul_0_l, Z.add_0_l in Hrun.
  assert (Hminus : Ascii.eqb (digit_char d) "-" = false).
  { pose proof (Hplain _ Hdigit) as Hs. apply orb_false_iff in Hs. exact (proj2 Hs). }
  unfold numeral. rewrite Hhead in Hrun |- *. destruct (Z.ltb_spec i 0) as [Hneg|Hpos].
  - cbn [unsigned negative]. change (Ascii.eqb "-" "+" || Ascii.eqb "-" "-") with true.
    cbn iota. rewrite Hrun.
    change (Ascii.eqb "-" "-") with true. cbn iota. f_equal. lia.
  - cbn [unsigned negative]. rewrite (Hplain _ Hdigit), Hrun, Hminus. f_equal. lia.
Qed.

(** [Atoi] and [ParseInt] read back the decimal text of every
    [int64]. *)
Lemma Atoi_FormatInt (i : Z) :
  - 2 ^ 63 <= i < 2 ^ 63 ->
  fst (Atoi (FormatInt i)) = i /\ fst (ParseInt (FormatInt i) 64) = i.
Proof.
  intros Hi. rewrite Atoi_count, (ParseInt_count _ 64) by auto.
  rewrite (header_count_numeral _ i (numeral_FormatInt i) Hi). split; reflexivity.
Qed.

Lemma header_count_outside (s : string) (n : Z) :
  numeral s = Some n -> ~ (- 2 ^ 63 <= n < 2 ^ 63) -> header_count s = int64_bound s.
Proof.
  intros Hnum Hn. unfold header_count, in_int64. rewrite Hnum.
  destruct (overflows s); [reflexivity|].
  case_compare; cbn [andb]; try reflexivity. lia.
Qed.

(** ** populateRate *)

(** C2 (amended).  On the wrapper [Do] builds, [populateRate] fills
    every field of the snapshot from its header as [header_count] and
    [header_reset] say: a valid integer inside the [int64] range
    gives that integer (for the reset header its time, zero seconds
    leaving the field unset); an absent header leaves the zero
    default; a value that spells no integer leaves the default too,
    provided its leading digits stay within 64 bits, which values of
    at most 19 bytes always do; an integer outside the range, or a
    value whose leading digits pass 64 bits, gives the bound of the
    range on its side.  No error is ever returned. *)
Theorem populateRate_snapshot (resp : http_Response) :
  Response_Rate (populateRate (fresh resp)) =
    {| RequestLimit := header_count (Header_Get (Header resp) headerRateLimit);
       RequestsRemaining := header_count (Header_Get (Header resp) headerRateRemaining);
       Reset := header_reset (Header_Get (Header resp) headerRateReset) |}
  /\ (forall value n, numeral value = Some n -> - 2 ^ 63 <= n < 2 ^ 63 ->
        header_count value = n
        /\ header_reset value =
             if n =? 0 then {| Time := time_zero |} else {| Time := time_Unix n |})
  /\ (header_count EmptyString = 0
      /\ header_reset EmptyString = {| Time := time_zero |})
  /\ (forall value, numeral value = None -> overflows value = false ->
        header_count value = 0 /\ header_reset value = {| Time := time_zero |})
  /\ (forall value, numeral value = None -> len value <= 19 -> overflows value = false)
  /\ (forall value n, numeral value = Some n -> ~ (- 2 ^ 63 <= n < 2 ^ 63) ->
        header_count value = int64_bound value)
  /\ (forall value, overflows value = true -> header_count value = int64_bound value).
Proof.
  split; [apply populateRate_fresh|].
  split.
  { intros value n Hnum Hn. unfold header_reset.
    rewrite (header_count_numeral value n Hnum Hn). split; reflexivity. }
  split; [split; reflexivity|].
  split.
  { intros value Hnum Hov. unfold header_reset.
    rewrite (header_count_no_numeral value Hnum Hov). split; reflexivity. }
  split; [exact no_numeral_short|].
  split; [exact header_count_outside|exact header_count_overflows].
Qed.

(** ** ErrorResponse.Error *)

Lemma append_nil_r (s : string) : s +:+ EmptyString = s.
Proof.
  induction s as [|c s IH]; [reflexivity|].
  change (String c (s +:+ EmptyString) = String c s). now rewrite IH.
Qed.

(** The text of an [ErrorResponse] that holds a response with its
    request, and the panic of one that does not. *)
Lemma Error_unfold (r : ErrorResponse) :
  Error r =
    match ErrorResponse_Response r with
    | None => panic_nil_dereference
    | Some response =>
        match Request response with
        | None => panic_nil_dereference
        | Some request =>
            done (Method request +:+ " "
                  +:+ fmt_value (fmt_Stringer (option_map url_String (URL request))) +:+ ": "
                  +:+ FormatInt (StatusCode response) +:+ " "
                  +:+ Message r)
        end
    end.
Proof.
  unfold Error. destruct (ErrorResponse_Response r) as [response|]; [|reflexivity].
  destruct (Request response) as [request|]; [|reflexivity].
  cbn [fmt_Sprintf Ascii.eqb Bool.eqb fmt_verb orb].
  cbn [fmt_value]. now rewrite append_nil_r.
Qed.

(** C7 (amended).  For an [ErrorResponse] whose [Response] is not nil
    and holds its request, the text is the request method, a space,
    the request URL, a colon and a space, the status code in decimal,
    a space and the message, in this order; with no message the text
    ends after that last space.  The URL is printed by its [String]
    method, and as [<nil>] when the request holds no URL.  The
    decimal text is a numeral that spells the status code. *)
Theorem Error_text (r : ErrorResponse) (response : http_Response)
    (request : http_Request) :
  ErrorResponse_Response r = Some response ->
  Request response = Some request ->
  Error r =
    done (Method request +:+ " "
          +:+ match URL request with
              | Some u => url_String u
              | None => "<nil>"%string
              end +:+ ": "
          +:+ FormatInt (StatusCode response) +:+ " "
          +:+ Message r)
  /\ (Message r = EmptyString ->
      Error r =
        done (Method request +:+ " "
              +:+ match URL request with
                  | Some u => url_String u
                  | None => "<nil>"%string
                  end +:+ ": "
              +:+ FormatInt (StatusCode response) +:+ " "))
  /\ numeral (FormatInt (StatusCode response)) = Some (StatusCode response).
Proof.
  intros Hresponse Hrequest.
  assert (Htext : Error r =
    done (Method request +:+ " "
          +:+ match URL request with
              | Some u => url_String u
              | None => "<nil>"%string
              end +:+ ": "
          +:+ FormatInt (StatusCode response) +:+ " "
          +:+ Message r)).
  { rewrite Error_unfold, Hresponse, Hrequest. now destruct (URL request). }
  split; [exact Htext|]. split; [|apply numeral_FormatInt].
  intros Hmsg. rewrite Htext, Hmsg. reflexivity.
Qed.

(** ** io/ioutil *)

(** [ioutil.ReadAll] is [Read] called until it fails. *)
Lemma ioutil_ReadAll_Read (r : ReadCloser) :
  ioutil_ReadAll r =
    match Body_Read r with
    | (r', chunk, None) =>
        let '(r'', data, err) := ioutil_ReadAll r' in (r'', chunk +:+ data, err)
    | (r', _, Some er) => (r', EmptyString, unless_EOF er)
    end.
Proof.
  destruct r as [chunks fail [|]]; [reflexivity|].
  destruct chunks as [|chunk rest]; reflexivity.
Qed.

(** The count of bytes aside, the loop of [io.Copy] does not depend on
    the count it starts from. *)
Lemma io_Copy_loop_written {W : Type} `{io_Writer W} (chunks : list string) :
  forall (dst : W) last k k',
    fst (fst (io_Copy_loop dst chunks last k)) = fst (fst (io_Copy_loop dst chunks last k'))
    /\ snd (io_Copy_loop dst chunks last k) = snd (io_Copy_loop dst chunks last k').
Proof.
  induction chunks as [|buf rest IH]; intros dst last k k'; [split; reflexivity|].
  cbn [io_Copy_loop]. destruct (0 <? len buf); [|apply IH].
  destruct (Write dst buf) as [[dst' nw] ew].
  destruct ((nw <? 0) || (len buf <? nw)); [split; reflexivity|].
  destruct ew as [e|]; [split; reflexivity|].
  destruct (negb (len buf =? nw)); [split; reflexivity|apply IH].
Qed.

(** [io.Copy] is [Read] and [Write] in turn, until either fails. *)
Lemma io_Copy_Read {W : Type} `{io_Writer W} (dst : W) (src : ReadCloser) :
  (fst (fst (io_Copy dst src)), snd (io_Copy dst src)) =
    match Body_Read src with
    | (src', _, Some er) => (dst, src', unless_EOF er)
    | (src', buf, None) =>
        if 0 <? len buf then
          let '(dst', nw, ew) := Write dst buf in
          let '(nw, ew) :=
            if (nw <? 0) || (len buf <? nw)
            then (0, Some (default io_errInvalidWrite ew)) else (nw, ew) in
          match ew with
          | Some _ => (dst', src', ew)
          | None =>
              if negb (len buf =? nw) then (dst', src', Some io_ErrShortWrite)
              else (fst (fst (io_Copy dst' src')), snd (io_Copy dst' src'))
          end
        else (fst (fst (io_Copy dst src')), snd (io_Copy dst src'))
    end.
Proof.
  destruct src as [chunks fail [|]]; [reflexivity|].
  destruct chunks as [|buf rest]; [reflexivity|].
  unfold io_Copy, Body_Read, Body_rest, Body_end.
  cbn [closed pending failure io_Copy_loop].
  set (last := default io_EOF fail).
  destruct (0 <? len buf).
  - destruct (Write dst buf) as [[dst' nw] ew].
    destruct ((nw <? 0) || (len buf <? nw)); [reflexivity|].
    destruct ew as [e|]; [reflexivity|].
    destruct (negb (len buf =? nw)); [reflexivity|].
    destruct (io_Copy_loop_written rest dst' last (0 + nw) 0) as [Hstate Herr].
    destruct (io_Copy_loop dst' rest last (0 + nw)) as [[[d r] n] e].
    destruct (io_Copy_loop dst' rest last 0) as [[[d0 r0] n0] e0].
    cbn [fst snd] in *. now inversion Hstate; subst.
  - destruct (io_Copy_loop dst rest last 0) as [[[d r] n] e]. reflexivity.
Qed.

(** ** CheckResponse *)

(** The structure [CheckResponse] starts from. *)
Local Abbreviation built r :=
  {| ErrorResponse_Response := Some r; Message := EmptyString |}.

(** What [CheckResponse] makes of the response and of the structure:
    the body is decoded over them when a non-empty body was read
    without an error. *)
Local Abbreviation unmarshalled r body :=
  (match ioutil_ReadAll body with
   | (_, data, None) =>
       if 0 <? len data then fst (json_Unmarshal data r (built r)) else (r, built r)
   | (_, _, Some _) => (r, built r)
   end).

Local Abbreviation checked r body := (fst (unmarshalled r body)).

Local Abbreviation decoded r body := (snd (unmarshalled r body)).

Lemma CheckResponse_2xx (r : http_Response) (body : ReadCloser) :
  200 <= StatusCode r <= 299 -> CheckResponse r body = (r, body, None).
Proof.
  intros H2xx. unfold CheckResponse.
  destruct (Z.leb_spec 200 (StatusCode r)); [|lia].
  destruct (Z.leb_spec (StatusCode r) 299); [reflexivity|lia].
Qed.

Lemma CheckResponse_other (r : http_Response) (body : ReadCloser) :
  ~ 200 <= StatusCode r <= 299 ->
  CheckResponse r body =
    (checked r body, fst (fst (ioutil_ReadAll body)),
     Some (ptr_ErrorResponse (decoded r body))).
Proof.
  intros Hother. unfold CheckResponse.
  destruct ((200 <=? StatusCode r) && (StatusCode r <=? 299)) eqn:Hc.
  - apply andb_true_iff in Hc as [H1 H2]. apply Z.leb_le in H1, H2. lia.
  - destruct (ioutil_ReadAll body) as [[body' data] [e|]]; [reflexivity|].
    destruct (0 <? len data); [|reflexivity].
    destruct (json_Unmarshal data r (built r)) as [[r' e'] err]. reflexivity.
Qed.

(** When nothing is decoded, the response and the structure are as
    [CheckResponse] found and built them. *)
Lemma unmarshalled_nothing (r : http_Response) (body : ReadCloser) :
  snd (fst (ioutil_ReadAll body)) = EmptyString \/ snd (ioutil_ReadAll body) <> None ->
  unmarshalled r body = (r, built r).
Proof.
  intros Hnone.
  destruct (ioutil_ReadAll body) as [[body' data] [e|]]; cbn [fst snd] in *;
    [reflexivity|].
  destruct Hnone as [->|Herr]; [reflexivity|congruence].
Qed.

(** ** Do *)

Lemma Do_Failed (c : Client) (req : http_Request) (v : destination)
    (resp : option http_Response) (err : error) :
  client c req = Failed resp err ->
  Do c req v =
    {| after_c := c; after_v := v; after_Body := None; returned := (None, Some err) |}.
Proof. intros Hrt. unfold Do. now rewrite Hrt. Qed.

Lemma Do_other (c : Client) (req : http_Request) (v : destination)
    (resp : http_Response) (body : ReadCloser) :
  client c req = Responded resp body ->
  ~ 200 <= StatusCode resp <= 299 ->
  Do c req v =
    {| after_c := set_RateLimit c (Response_Rate (populateRate (fresh resp)));
       after_v := v;
       after_Body := Some (Body_Close (fst (fst (ioutil_ReadAll body))));
       returned := (Some {| Response_Response := checked resp body;
                            Response_Rate := Response_Rate (populateRate (fresh resp)) |},
                    Some (ptr_ErrorResponse (decoded resp body))) |}.
Proof.
  intros Hrt Hother. unfold Do. rewrite Hrt, (CheckResponse_other _ _ Hother). reflexivity.
Qed.

Lemma Do_2xx (c : Client) (req : http_Request) (v : destination)
    (resp : http_Response) (body : ReadCloser) :
  client c req = Responded resp body ->
  200 <= StatusCode resp <= 299 ->
  Do c req v =
    let c' := set_RateLimit c (Response_Rate (populateRate (fresh resp))) in
    let response := populateRate (fresh resp) in
    match v with
    | nil_destination =>
        {| after_c := c'; after_v := nil_destination;
           after_Body := Some (Body_Close body); returned := (Some response, None) |}
    | a_destination (Some w) target t =>
        {| after_c := c';
           after_v := a_destination (Some w) target (fst (fst (fst (@io_Copy _ w t body))));
           after_Body := Some (Body_Close (snd (fst (fst (@io_Copy _ w t body)))));
           returned := (Some response, None) |}
    | a_destination None target t =>
        {| after_c := c';
           after_v := a_destination None target (snd (fst (@json_Decode _ target body t)));
           after_Body := Some (Body_Close (fst (fst (@json_Decode _ target body t))));
           returned := (Some response, snd (@json_Decode _ target body t)) |}
    end.
Proof.
  intros Hrt H2xx. unfold Do. rewrite Hrt, (CheckResponse_2xx _ _ H2xx).
  destruct v as [|T [w|] target t]; [reflexivity| |].
  - destruct (@io_Copy _ w t body) as [[[t' body'] n] e]. reflexivity.
  - destruct (@json_Decode _ target body t) as [[body' t'] [e|]]; reflexivity.
Qed.

Lemma status_cases (resp : http_Response) :
  200 <= StatusCode resp <= 299 \/ ~ 200 <= StatusCode resp <= 299.
Proof. lia. Qed.

(** The client after a call that met a response, and the wrapper
    returned: it refers to the response as the check leaves it and
    carries the rate read before the check. *)
Lemma Do_after_c (c : Client) (req : http_Request) (v : destination)
    (resp : http_Response) (body : ReadCloser) :
  client c req = Responded resp body ->
  after_c (Do c req v) = set_RateLimit c (Response_Rate (populateRate (fresh resp)))
  /\ fst (returned (Do c req v)) =
       Some {| Response_Response := fst (fst (CheckResponse resp body));
               Response_Rate := Response_Rate (populateRate (fresh resp)) |}.
Proof.
  intros Hrt. destruct (status_cases resp) as [H2xx|Hother].
  - rewrite (Do_2xx _ _ _ _ _ Hrt H2xx), (CheckResponse_2xx _ _ H2xx).
    destruct v as [|T [w|] target t]; split; reflexivity.
  - rewrite (Do_other _ _ _ _ _ Hrt Hother), (CheckResponse_other _ _ Hother).
    split; reflexivity.
Qed.

(** C1 (amended).  [CheckResponse] returns no error exactly for the
    status codes 200 to 299.  For any other status it returns a
    non-nil [ErrorResponse]: the structure built around the checked
    response, over which a non-empty body read without error has been
    decoded; its embedded response is the checked one, status code
    included, whenever that decoding leaves the field alone, and
    always when nothing is decoded.  [Do] then returns that same
    error; for the codes 200 to 299 it returns nil, unless it decodes
    into a destination that is no writer, where it returns what the
    decoding returns. *)
Theorem CheckResponse_Do_errors (resp : http_Response) (body : ReadCloser) :
  (snd (CheckResponse resp body) = None <-> 200 <= StatusCode resp <= 299)
  /\ (~ 200 <= StatusCode resp <= 299 ->
      snd (CheckResponse resp body) = Some (ptr_ErrorResponse (decoded resp body))
      /\ (ErrorResponse_Response
            (snd (fst (json_Unmarshal (snd (fst (ioutil_ReadAll body))) resp (built resp))))
          = Some resp ->
          ErrorResponse_Response (decoded resp body) = Some resp
          /\ option_map StatusCode (ErrorResponse_Response (decoded resp body))
             = Some (StatusCode resp))
      /\ (snd (fst (ioutil_ReadAll body)) = EmptyString \/ snd (ioutil_ReadAll body) <> None ->
          decoded resp body = built resp))
  /\ (forall (c : Client) (req : http_Request) (v : destination),
      client c req = Responded resp body ->
      (~ 200 <= StatusCode resp <= 299 ->
       snd (returned (Do c req v)) = Some (ptr_ErrorResponse (decoded resp body)))
      /\ (200 <= StatusCode resp <= 299 ->
          snd (returned (Do c req v)) =
            match v with
            | a_destination None target t => snd (@json_Decode _ target body t)
            | _ => None
            end)).
Proof.
  split; [|split].
  - destruct (status_cases resp) as [H2xx|Hother].
    + rewrite (CheckResponse_2xx _ _ H2xx). cbn [snd]. tauto.
    + rewrite (CheckResponse_other _ _ Hother). cbn [snd]. split; [discriminate|tauto].
  - intros Hother. rewrite (CheckResponse_other _ _ Hother). cbn [snd].
    split; [reflexivity|]. split.
    + intros Hkept.
      destruct (ioutil_ReadAll body) as [[body' data] [e|]]; cbn [fst snd] in *;
        [split; reflexivity|].
      destruct (0 <? len data); [rewrite Hkept|]; split; reflexivity.
    + intros Hnone. now rewrite (unmarshalled_nothing resp body Hnone).
  - intros c req v Hrt. split.
    + intros Hother. rewrite (Do_other _ _ _ _ _ Hrt Hother). reflexivity.
    + intros H2xx. rewrite (Do_2xx _ _ _ _ _ Hrt H2xx).
      destruct v as [|T [w|] target t]; reflexivity.
Qed.

(** C3.  Whenever the transport returns a response, whatever its
    status code, the body and the destination, the snapshot is read
    from the headers as the transport delivered them, before the
    status is checked: it is what [Do] leaves in the client's
    [RateLimit] and what the returned wrapper carries, whatever the
    check does to the response afterwards, and the API error of a
    status outside 200 to 299 comes beside it.  The wrapper refers to
    the response as the check leaves it, which for the codes 200 to
    299 is the response as delivered. *)
Theorem Do_records_Rate (c : Client) (req : http_Request) (v : destination)
    (resp : http_Response) (body : ReadCloser) :
  client c req = Responded resp body ->
  let rate := Response_Rate (populateRate (fresh resp)) in
  RateLimit (after_c (Do c req v)) = rate
  /\ fst (returned (Do c req v)) =
       Some {| Response_Response := fst (fst (CheckResponse resp body));
               Response_Rate := rate |}
  /\ (200 <= StatusCode resp <= 299 ->
      fst (returned (Do c req v)) =
        Some {| Response_Response := resp; Response_Rate := rate |})
  /\ rate =
       {| RequestLimit := header_count (Header_Get (Header resp) headerRateLimit);
          RequestsRemaining := header_count (Header_Get (Header resp) headerRateRemaining);
          Reset := header_reset (Header_Get (Header resp) headerRateReset) |}
  /\ (~ 200 <= StatusCode resp <= 299 ->
      exists e, snd (returned (Do c req v)) = Some (ptr_ErrorResponse e)).
Proof.
  intros Hrt rate. destruct (Do_after_c c req v resp body Hrt) as [Hc Hret].
  split; [now rewrite Hc|]. split; [exact Hret|].
  split; [intros H2xx; now rewrite Hret, (CheckResponse_2xx _ _ H2xx)|].
  split; [apply populateRate_fresh|].
  intros Hother. rewrite (Do_other _ _ _ _ _ Hrt Hother). eexists. reflexivity.
Qed.

(** C4.  When the transport fails, with or without a response beside
    its error, [Do] returns a nil wrapper and that error, and leaves
    the client, its [RateLimit] included, and the destination as they
    were; no body is touched. *)
Theorem Do_transport_failure (c : Client) (req : http_Request) (v : destination)
    (resp : option http_Response) (err : error) :
  client c req = Failed resp err ->
  returned (Do c req v) = (None, Some err)
  /\ after_c (Do c req v) = c
  /\ RateLimit (after_c (Do c req v)) = RateLimit c
  /\ after_v (Do c req v) = v
  /\ after_Body (Do c req v) = None.
Proof. intros Hrt. rewrite (Do_Failed _ _ _ _ _ Hrt). repeat split. Qed.

(** C10.  Whenever the transport returns a response, the client's
    [RateLimit] after [Do] is the snapshot parsed from that response
    alone, in all three fields: a header that spells a number of the
    [int64] range puts that number, or for the reset header the time
    of that Unix second, in the place of what was held before, a
    field whose header is absent is left at zero, or unset, and what
    was held before has no part in the result. *)
Theorem Do_replaces_RateLimit (c : Client) (req : http_Request) (v : destination)
    (resp : http_Response) (body : ReadCloser) :
  client c req = Responded resp body ->
  after_c (Do c req v) = set_RateLimit c (Response_Rate (populateRate (fresh resp)))
  /\ RateLimit (after_c (Do c req v)) =
       {| RequestLimit := header_count (Header_Get (Header resp) headerRateLimit);
          RequestsRemaining := header_count (Header_Get (Header resp) headerRateRemaining);
          Reset := header_reset (Header_Get (Header resp) headerRateReset) |}
  /\ (forall before : Rate,
      RateLimit (after_c (Do (set_RateLimit c before) req v))
      = RateLimit (after_c (Do c req v)))
  /\ (forall n : Z,
      - 2 ^ 63 <= n < 2 ^ 63 ->
      (Header_Get (Header resp) headerRateLimit = FormatInt n ->
       RequestLimit (RateLimit (after_c (Do c req v))) = n)
      /\ (Header_Get (Header resp) headerRateRemaining = FormatInt n ->
          RequestsRemaining (RateLimit (after_c (Do c req v))) = n)
      /\ (Header_Get (Header resp) headerRateReset = FormatInt n ->
          n <> 0 ->
          Reset (RateLimit (after_c (Do c req v))) = {| Time := time_Unix n |}))
  /\ (Header_Get (Header resp) headerRateLimit = EmptyString ->
      RequestLimit (RateLimit (after_c (Do c req v))) = 0)
  /\ (Header_Get (Header resp) headerRateRemaining = EmptyString ->
      RequestsRemaining (RateLimit (after_c (Do c req v))) = 0)
  /\ (Header_Get (Header resp) headerRateReset = EmptyString ->
      Reset (RateLimit (after_c (Do c req v))) = {| Time := time_zero |}).
Proof.
  intros Hrt. destruct (Do_after_c c req v resp body Hrt) as [Hc _].
  split; [exact Hc|].
  assert (Hrate : RateLimit (after_c (Do c req v)) =
    {| RequestLimit := header_count (Header_Get (Header resp) headerRateLimit);
       RequestsRemaining := header_count (Header_Get (Header resp) headerRateRemaining);
       Reset := header_reset (Header_Get (Header resp) headerRateReset) |}).
  { rewrite Hc. cbn [set_RateLimit RateLimit]. apply populateRate_fresh. }
  split; [exact Hrate|]. split.
  { intros before.
    destruct (Do_after_c (set_RateLimit c before) req v resp body Hrt) as [Hb _].
    now rewrite Hb, Hc. }
  rewrite Hrate. cbn [RequestLimit RequestsRemaining Reset]. split.
  { intros n Hn. repeat split.
    - intros Hlimit. rewrite Hlimit.
      apply (header_count_numeral _ n (numeral_FormatInt n) Hn).
    - intros Hremaining. rewrite Hremaining.
      apply (header_count_numeral _ n (numeral_FormatInt n) Hn).
    - intros Hreset Hset. rewrite Hreset. unfold header_reset.
      rewrite (header_count_numeral _ n (numeral_FormatInt n) Hn).
      apply Z.eqb_neq in Hset. now rewrite Hset. }
  repeat split; intros Habsent; rewrite Habsent; reflexivity.
Qed.

(** C8 (amended).  For a status from 200 to 299 and a nil
    destination, [Do] reads nothing from the body: it leaves the
    stream as the transport handed it over, only closed, and returns
    the wrapper and a nil error. *)
Theorem Do_nil_destination (c : Client) (req : http_Request)
    (resp : http_Response) (body : ReadCloser) :
  client c req = Responded resp body ->
  200 <= StatusCode resp <= 299 ->
  after_Body (Do c req nil_destination) = Some (Body_Close body)
  /\ (forall b, after_Body (Do c req nil_destination) = Some b ->
      pending b = pending body /\ closed b = true)
  /\ after_v (Do c req nil_destination) = nil_destination
  /\ returned (Do c req nil_destination) = (Some (populateRate (fresh resp)), None).
Proof.
  intros Hrt H2xx. rewrite (Do_2xx _ _ _ _ _ Hrt H2xx). cbn.
  repeat split; intros; simplify_eq; reflexivity.
Qed.

(** ** io.Copy into a buffer *)

Lemma append_assoc (s1 s2 s3 : string) : (s1 +:+ s2) +:+ s3 = s1 +:+ (s2 +:+ s3).
Proof.
  induction s1 as [|c s1 IH]; [reflexivity|].
  change (String c ((s1 +:+ s2) +:+ s3) = String c (s1 +:+ (s2 +:+ s3))). now rewrite IH.
Qed.

Lemma len_zero (s : string) : len s <= 0 -> s = EmptyString.
Proof. destruct s; [reflexivity|]. rewrite len_cons. pose proof (len_nonneg s). lia. Qed.

Lemma io_Copy_loop_Buffer (chunks : list string) : forall (b : bytes_Buffer) last written,
  exists n,
    io_Copy_loop b chunks last written =
      ({| Bytes := Bytes b +:+ fold_right String.append EmptyString chunks |}, [], n,
       unless_EOF last).
Proof.
  induction chunks as [|buf rest IH]; intros b last written.
  - exists written. cbn [io_Copy_loop fold_right]. rewrite append_nil_r.
    destruct b. reflexivity.
  - cbn [io_Copy_loop fold_right]. destruct (Z.ltb_spec 0 (len buf)) as [Hpos|Hzero].
    + cbn [Write bytes_Buffer_Writer].
      destruct (Z.ltb_spec (len buf) 0); [lia|].
      destruct (Z.ltb_spec (len buf) (len buf)); [lia|]. cbn [orb].
      rewrite Z.eqb_refl. cbn [negb].
      destruct (IH {| Bytes := Bytes b +:+ buf |} last (written + len buf)) as [n Hn].
      exists n. rewrite Hn. cbn [Bytes]. now rewrite append_assoc.
    + rewrite (len_zero buf Hzero). destruct (IH b last written) as [n Hn].
      exists n. rewrite Hn. reflexivity.
Qed.

Lemma tee_Write {W : Type} `{io_Writer W} (x : tee W) (p : string) :
  Write x p =
    ({| inner := fst (fst (Write (inner x) p)); seen := seen x +:+ p |},
     snd (fst (Write (inner x) p)), snd (Write (inner x) p)).
Proof.
  change (Write x p) with
    (let '(w, n, err) := Write (inner x) p in
     ({| inner := w; seen := seen x +:+ p |}, n, err)).
  destruct (Write (inner x) p) as [[w n] err]. reflexivity.
Qed.

(** What [io.Copy] hands to the writer is a head of the stream, chunk
    by chunk and byte for byte, and all of it unless it reports an
    error. *)
Lemma io_Copy_loop_tee {W : Type} `{io_Writer W} (chunks : list string) :
  forall (x : tee W) last written,
  exists j,
    seen (fst (fst (fst (io_Copy_loop x chunks last written)))) =
      seen x +:+ fold_right String.append EmptyString (take j chunks)
    /\ (snd (io_Copy_loop x chunks last written) = None -> j = length chunks).
Proof.
  induction chunks as [|buf rest IH]; intros x last written.
  - exists 0%nat. cbn [io_Copy_loop fst take fold_right]. now rewrite append_nil_r.
  - cbn [io_Copy_loop]. destruct (Z.ltb_spec 0 (len buf)) as [Hpos|Hzero].
    + rewrite tee_Write. destruct (Write (inner x) buf) as [[w nw] ew]. cbn [fst snd].
      set (x' := {| inner := w; seen := seen x +:+ buf |}).
      assert (Hstop : seen x' =
                seen x +:+ fold_right String.append EmptyString (take 1 (buf :: rest))).
      { cbn [take fold_right seen x']. now rewrite append_nil_r. }
      assert (Hgo : forall k, exists j,
                seen (fst (fst (fst (io_Copy_loop x' rest last k)))) =
                  seen x +:+ fold_right String.append EmptyString (take j (buf :: rest))
                /\ (snd (io_Copy_loop x' rest last k) = None -> j = length (buf :: rest))).
      { intros k. destruct (IH x' last k) as (j & Hseen & Hall). exists (S j).
        split; [|intros Hnone; cbn [length]; f_equal; now apply Hall].
        rewrite Hseen. cbn [take fold_right seen x']. now rewrite append_assoc. }
      destruct ((nw <? 0) || (len buf <? nw)).
      * exists 1%nat. split; [exact Hstop|discriminate].
      * destruct ew as [e|].
        -- exists 1%nat. split; [exact Hstop|discriminate].
        -- destruct (negb (len buf =? nw)).
           ++ exists 1%nat. split; [exact Hstop|discriminate].
           ++ apply Hgo.
    + rewrite (len_zero buf Hzero). destruct (IH x last written) as (j & Hseen & Hall).
      exists (S j). split; [|intros Hnone; cbn [length]; f_equal; now apply Hall].
      rewrite Hseen. reflexivity.
Qed.

(** C5.  For a status from 200 to 299 and a destination that is a
    writer, whatever the body holds, [Do] hands the body to [io.Copy]
    and nothing else reads it: the destination and the stream are
    left as [io.Copy] leaves them and the error returned is nil.  How
    the destination would decode plays no part in the outcome.  What
    any writer is handed is a head of the body, byte for byte; into a
    buffer, from a stream not closed beforehand, the copy appends all
    the bytes of the body as they are. *)
Theorem Do_raw_sink (c : Client) (req : http_Request)
    (resp : http_Response) (body : ReadCloser) :
  client c req = Responded resp body ->
  200 <= StatusCode resp <= 299 ->
  (forall (T : Type) (w : io_Writer T) (target : json_Target T) (t : T),
     Do c req (a_destination (Some w) target t) =
       {| after_c := set_RateLimit c (Response_Rate (populateRate (fresh resp)));
          after_v := a_destination (Some w) target (fst (fst (fst (@io_Copy _ w t body))));
          after_Body := Some (Body_Close (snd (fst (fst (@io_Copy _ w t body)))));
          returned := (Some (populateRate (fresh resp)), None) |})
  /\ (forall (T : Type) (w : io_Writer T) (target target' : json_Target T) (t : T),
       after_Body (Do c req (a_destination (Some w) target t))
       = after_Body (Do c req (a_destination (Some w) target' t))
       /\ returned (Do c req (a_destination (Some w) target t))
          = returned (Do c req (a_destination (Some w) target' t)))
  /\ (forall (W : Type) (w : io_Writer W) (target : json_Target (tee W)) (x : tee W),
       exists j x',
         after_v (Do c req (a_destination (Some tee_Writer) target x)) =
           a_destination (Some tee_Writer) target x'
         /\ seen x' =
              seen x +:+ fold_right String.append EmptyString (take j (pending body)))
  /\ (forall (target : json_Target bytes_Buffer) (b : bytes_Buffer),
       closed body = false ->
       after_v (Do c req (a_destination (Some bytes_Buffer_Writer) target b)) =
         a_destination (Some bytes_Buffer_Writer) target
           {| Bytes := Bytes b +:+ fold_right String.append EmptyString (pending body) |}
       /\ snd (returned (Do c req (a_destination (Some bytes_Buffer_Writer) target b)))
          = None).
Proof.
  intros Hrt H2xx. split; [|split; [|split]].
  - intros T w target t. now rewrite (Do_2xx _ _ _ _ _ Hrt H2xx).
  - intros T w target target' t. rewrite !(Do_2xx _ _ _ _ _ Hrt H2xx). split; reflexivity.
  - intros W w target x. rewrite (Do_2xx _ _ _ _ _ Hrt H2xx). cbn [after_v].
    unfold io_Copy.
    destruct (io_Copy_loop_tee (if closed body then [] else pending body) x
                (Body_end body) 0) as (j & Hseen & _).
    destruct (io_Copy_loop x (if closed body then [] else pending body) (Body_end body) 0)
      as [[[x' rest] n] e].
    cbn [fst] in *. destruct (closed body).
    + exists 0%nat, x'. split; [reflexivity|]. rewrite Hseen.
      now rewrite take_nil.
    + exists j, x'. split; [reflexivity|exact Hseen].
  - intros target b Hopen. rewrite (Do_2xx _ _ _ _ _ Hrt H2xx). cbn [after_v returned snd].
    split; [|reflexivity]. unfold io_Copy. rewrite Hopen.
    destruct (io_Copy_loop_Buffer (pending body) b (Body_end body) 0) as [n Hn].
    rewrite Hn. reflexivity.
Qed.

(** C9.  For a status from 200 to 299 and a destination that is a
    writer, an error of the copy is dropped: [Do] returns a nil error
    and leaves the destination with what the copy wrote before it
    failed. *)
Theorem Do_copy_failure_discarded (c : Client) (req : http_Request)
    (resp : http_Response) (body : ReadCloser)
    (T : Type) (w : io_Writer T) (target : json_Target T) (t : T) :
  client c req = Responded resp body ->
  200 <= StatusCode resp <= 299 ->
  snd (@io_Copy _ w t body) <> None ->
  snd (returned (Do c req (a_destination (Some w) target t))) = None
  /\ after_v (Do c req (a_destination (Some w) target t)) =
       a_destination (Some w) target (fst (fst (fst (@io_Copy _ w t body)))).
Proof.
  intros Hrt H2xx _. rewrite (Do_2xx _ _ _ _ _ Hrt H2xx). split; reflexivity.
Qed.

(** ** NewRequest *)

(** The five headers of every request. *)
Local Abbreviation five_headers c :=
  (<["X-Auth-Token" := [ApiKey c]]>
     (<["X-Consumer-Token" := [ConsumerToken c]]>
        (<["Content-Type" := [mediaType]]>
           (<["Accept" := [mediaType]]>
              (<["User-Agent" := [userAgent]]> (∅ : http_Header)))))).

Lemma request_setup_Header (c : Client) (req : http_Request) :
  Request_Header req = ∅ ->
  Request_Header (request_setup c req) = five_headers c
  /\ size (Request_Header (request_setup c req)) = 5%nat.
Proof.
  intros Hempty. unfold request_setup. cbn [Request_Header]. rewrite Hempty.
  destruct c as [rt base ua consumer key rate]. cbn [ApiKey ConsumerToken].
  split; vm_compute; reflexivity.
Qed.

(** C6 (amended).  [NewRequest] returns an error and no request when
    the path does not parse, when the body does not marshal, and also
    when [http.NewRequest] refuses the method or the text of the
    resolved URL.  Otherwise it returns a request and no error: its
    URL is the base URL resolved with the path, as [http.NewRequest]
    parses it back from its text and with an empty port dropped, so
    the resolved URL itself when that changes nothing; its headers
    are the five fixed ones and no other; its body is the marshalled
    value and a newline, or empty; and it is marked to close. *)
Theorem NewRequest_outcome (c : Client) (method path : string) (body : payload) :
  match url_Parse path with
  | inr err => NewRequest c method path body = (None, Some err)
  | inl rel =>
      let u := url_ResolveReference (BaseURL c) rel in
      match
        match body with
        | nil_payload => inl EmptyString
        | some_payload b =>
            match json_Marshal b with
            | inl text => inl (text +:+ String "010" EmptyString)
            | inr err => inr err
            end
        end
      with
      | inr err => NewRequest c method path body = (None, Some err)
      | inl buf =>
          let m := if String.eqb method EmptyString then "GET"%string else method in
          if validMethod m then
            match url_Parse (url_String u) with
            | inr err => NewRequest c method path body = (None, Some err)
            | inl u' =>
                exists req,
                  NewRequest c method path body = (Some req, None)
                  /\ Method req = m
                  /\ URL req =
                       Some {| Scheme := Scheme u'; Opaque := Opaque u';
                               Host := removeEmptyPort (Host u'); Path := Path u';
                               RawQuery := RawQuery u'; Fragment := Fragment u' |}
                  /\ (u' = u -> removeEmptyPort (Host u) = Host u -> URL req = Some u)
                  /\ Request_Header req = five_headers c
                  /\ size (Request_Header req) = 5%nat
                  /\ Request_Body req = buf
                  /\ Close req = true
            end
          else exists err, NewRequest c method path body = (None, Some err)
      end
  end.
Proof.
  unfold NewRequest. destruct (url_Parse path) as [rel|err]; [|reflexivity].
  cbn zeta.
  assert (Hbuf :
    match body with
    | nil_payload => inl EmptyString
    | some_payload b => json_Encode EmptyString b
    end =
    match body with
    | nil_payload => inl EmptyString
    | some_payload b =>
        match json_Marshal b with
        | inl text => inl (text +:+ String "010" EmptyString)
        | inr err => inr err
        end
    end).
  { destruct body as [|B M b]; [reflexivity|]. unfold json_Encode.
    destruct (json_Marshal b); reflexivity. }
  rewrite Hbuf. clear Hbuf.
  destruct (match body with
            | nil_payload => inl EmptyString
            | some_payload b => _
            end) as [buf|err]; [|reflexivity].
  unfold http_NewRequest. cbv zeta.
  set (m := if String.eqb method EmptyString then "GET"%string else method).
  destruct (validMethod m) eqn:Hvalid; cbn [negb].
  - destruct (url_Parse (url_String (url_ResolveReference (BaseURL c) rel))) as [u'|err].
    + eexists. split; [reflexivity|].
      destruct (request_setup_Header c
        {| Method := m;
           URL := Some {| Scheme := Scheme u'; Opaque := Opaque u';
                          Host := removeEmptyPort (Host u'); Path := Path u';
                          RawQuery := RawQuery u'; Fragment := Fragment u' |};
           Request_Header := ∅; Request_Body := buf; Close := false |} eq_refl)
        as [Hfive Hsize].
      repeat split; try assumption.
      intros -> Hport. cbn [request_setup URL]. rewrite Hport.
      destruct (url_ResolveReference (BaseURL c) rel). reflexivity.
    + reflexivity.
  - eexists. reflexivity.
Qed.

(** * Further properties *)

(** ** populateRate *)

(** X1.  Headers that carry the decimal text of three [int64] numbers
    give back these numbers: the limit, the remaining count, and the
    reset time at that Unix second, or no reset time for zero. *)
Theorem populateRate_decimal (resp : http_Response) (l m t : Z) :
  - 2 ^ 63 <= l < 2 ^ 63 ->
  - 2 ^ 63 <= m < 2 ^ 63 ->
  - 2 ^ 63 <= t < 2 ^ 63 ->
  Header_Get (Header resp) headerRateLimit = FormatInt l ->
  Header_Get (Header resp) headerRateRemaining = FormatInt m ->
  Header_Get (Header resp) headerRateReset = FormatInt t ->
  Response_Rate (populateRate (fresh resp)) =
    {| RequestLimit := l; RequestsRemaining := m;
       Reset := {| Time := if t =? 0 then time_zero else time_Unix t |} |}.
Proof.
  intros Hl Hm Ht Hlimit Hremaining Hreset.
  rewrite populateRate_fresh, Hlimit, Hremaining, Hreset. unfold header_reset.
  rewrite (header_count_numeral _ l (numeral_FormatInt l) Hl).
  rewrite (header_count_numeral _ m (numeral_FormatInt m) Hm).
  rewrite (header_count_numeral _ t (numeral_FormatInt t) Ht).
  destruct (t =? 0); reflexivity.
Qed.

(** X2.  On a wrapper that already holds a rate, a count whose header
    is absent keeps its earlier value, and a count whose header is
    present is overwritten, with zero when the header spells no
    integer; the reset time is overwritten only by a header that
    reads as a number other than zero, and is kept otherwise, also
    when its header spells no integer.  The embedded response is
    left as it is. *)
Theorem populateRate_earlier_Rate (r : Response) :
  (Header_Get (Header (Response_Response r)) headerRateLimit = EmptyString ->
   RequestLimit (Response_Rate (populateRate r)) = RequestLimit (Response_Rate r))
  /\ (Header_Get (Header (Response_Response r)) headerRateRemaining = EmptyString ->
      RequestsRemaining (Response_Rate (populateRate r))
      = RequestsRemaining (Response_Rate r))
  /\ (Header_Get (Header (Response_Response r)) headerRateLimit <> EmptyString ->
      RequestLimit (Response_Rate (populateRate r))
      = header_count (Header_Get (Header (Response_Response r)) headerRateLimit))
  /\ (Header_Get (Header (Response_Response r)) headerRateRemaining <> EmptyString ->
      RequestsRemaining (Response_Rate (populateRate r))
      = header_count (Header_Get (Header (Response_Response r)) headerRateRemaining))
  /\ (Header_Get (Header (Response_Response r)) headerRateLimit <> EmptyString ->
      numeral (Header_Get (Header (Response_Response r)) headerRateLimit) = None ->
      overflows (Header_Get (Header (Response_Response r)) headerRateLimit) = false ->
      RequestLimit (Response_Rate (populateRate r)) = 0)
  /\ (numeral (Header_Get (Header (Response_Response r)) headerRateReset) = None ->
      overflows (Header_Get (Header (Response_Response r)) headerRateReset) = false ->
      Reset (Response_Rate (populateRate r)) = Reset (Response_Rate r))
  /\ (header_count (Header_Get (Header (Response_Response r)) headerRateReset) = 0 ->
      Reset (Response_Rate (populateRate r)) = Reset (Response_Rate r))
  /\ (header_count (Header_Get (Header (Response_Response r)) headerRateReset) <> 0 ->
      Reset (Response_Rate (populateRate r))
      = {| Time := time_Unix
                     (header_count
                        (Header_Get (Header (Response_Response r)) headerRateReset)) |})
  /\ Response_Response (populateRate r) = Response_Response r.
Proof.
  rewrite populateRate_Rate. cbn [RequestLimit RequestsRemaining Reset].
  repeat split.
  - intros ->. reflexivity.
  - intros ->. reflexivity.
  - intros Hset. now destruct (String.eqb_spec
      (Header_Get (Header (Response_Response r)) headerRateLimit) EmptyString).
  - intros Hset. now destruct (String.eqb_spec
      (Header_Get (Header (Response_Response r)) headerRateRemaining) EmptyString).
  - intros Hset Hnum Hov.
    destruct (String.eqb_spec
      (Header_Get (Header (Response_Response r)) headerRateLimit) EmptyString);
      [contradiction|]. now apply header_count_no_numeral.
  - intros Hnum Hov. now rewrite (header_count_no_numeral _ Hnum Hov).
  - intros ->. reflexivity.
  - intros Hset. apply Z.eqb_neq in Hset. now rewrite Hset.
Qed.

(** X3.  [populateRate] run a second time changes nothing. *)
Theorem populateRate_twice (r : Response) :
  populateRate (populateRate r) = populateRate r.
Proof.
  assert (Hsame : forall a b : Response,
            Response_Response a = Response_Response b ->
            Response_Rate a = Response_Rate b -> a = b).
  { intros [a1 a2] [b1 b2]. cbn. now intros -> ->. }
  apply Hsame; [reflexivity|].
  rewrite (populateRate_Rate (populateRate r)), populateRate_Response.
  rewrite (populateRate_Rate r). cbn [RequestLimit RequestsRemaining Reset].
  f_equal.
  - now destruct (String.eqb
      (Header_Get (Header (Response_Response r)) headerRateLimit) EmptyString).
  - now destruct (String.eqb
      (Header_Get (Header (Response_Response r)) headerRateRemaining) EmptyString).
  - now destruct (header_count
      (Header_Get (Header (Response_Response r)) headerRateReset) =? 0).
Qed.

Lemma Header_Get_Add_first (h : http_Header) (key key' v w : string) :
  CanonicalMIMEHeaderKey key = CanonicalMIMEHeaderKey key' ->
  h !! CanonicalMIMEHeaderKey key' = None ->
  Header_Get (Header_Add (Header_Add h key v) key w) key' = v.
Proof.
  intros Hkey Hfree. unfold Header_Get, Header_Add. rewrite Hkey.
  rewrite !lookup_insert_eq, Hfree. reflexivity.
Qed.

(** X4.  The rate headers are found under any spelling that has the
    canonical form of their names, and of a header added twice the
    first value is the one read.  A header map that holds the values
    under the names as the constants of the source spell them, which
    is not their canonical form, gives no rate at all. *)
Theorem populateRate_Header_spelling (status : Z) (request : option http_Request) :
  (forall (h : http_Header) (key v w : string),
     CanonicalMIMEHeaderKey key = CanonicalMIMEHeaderKey headerRateLimit ->
     h !! CanonicalMIMEHeaderKey headerRateLimit = None ->
     RequestLimit
       (Response_Rate
          (populateRate
             (fresh {| StatusCode := status;
                       Header := Header_Add (Header_Add h key v) key w;
                       Request := request |})))
     = header_count v)
  /\ (forall limit remaining reset : string,
        Response_Rate
          (populateRate
             (fresh {| StatusCode := status;
                       Header := <[headerRateLimit := [limit]]>
                                   (<[headerRateRemaining := [remaining]]>
                                      (<[headerRateReset := [reset]]> ∅));
                       Request := request |}))
        = Rate_zero).
Proof.
  split.
  - intros h key v w Hkey Hfree. rewrite populateRate_fresh. cbn [RequestLimit Header].
    now rewrite (Header_Get_Add_first h key headerRateLimit v w Hkey Hfree).
  - intros limit remaining reset. rewrite populateRate_fresh. cbn [Header].
    reflexivity.
Qed.

(** ** ErrorResponse.Error and CheckResponse *)

Lemma unmarshalled_no_body (r : http_Response) (body : ReadCloser) :
  pending body = [] -> unmarshalled r body = (r, built r).
Proof.
  intros Hempty. apply unmarshalled_nothing. left.
  unfold ioutil_ReadAll. rewrite Hempty. cbn [fst snd]. now destruct (closed body).
Qed.

(** X5.  For a status outside 200 to 299 and a body that holds
    nothing, [CheckResponse] leaves the response as it is, and its
    error has no message: for a response that holds its request the
    text is the method, the URL and the status code of the response,
    closed by a space, and for a response without a request [Error]
    panics. *)
Theorem CheckResponse_Error_no_body (r : http_Response) (body : ReadCloser) :
  ~ 200 <= StatusCode r <= 299 ->
  pending body = [] ->
  exists e,
    snd (CheckResponse r body) = Some (ptr_ErrorResponse e)
    /\ fst (fst (CheckResponse r body)) = r
    /\ Message e = EmptyString
    /\ (forall request,
          Request r = Some request ->
          Error e =
            done (Method request +:+ " "
                  +:+ match URL request with
                      | Some u => url_String u
                      | None => "<nil>"%string
                      end +:+ ": "
                  +:+ FormatInt (StatusCode r) +:+ " "))
    /\ (Request r = None -> Error e = panic_nil_dereference).
Proof.
  intros Hother Hempty. rewrite (CheckResponse_other _ _ Hother). cbn [fst snd].
  rewrite (unmarshalled_no_body r body Hempty). cbn [fst snd].
  exists (built r). split; [reflexivity|]. split; [reflexivity|].
  split; [reflexivity|]. rewrite Error_unfold. cbn [ErrorResponse_Response Message].
  split.
  - intros request ->. now destruct (URL request).
  - intros ->. reflexivity.
Qed.

(** X6.  [CheckResponse] never closes the body.  For a status from
    200 to 299 it touches neither the response nor the body.  For any
    other status it reads an open body to its end; and when that
    leaves nothing to decode, because the body is closed or empty or
    its reading ends in an error other than [io.EOF], the response
    stays as it was and the error is the structure built around it,
    without a message. *)
Theorem CheckResponse_reads_Body (r : http_Response) (body : ReadCloser) :
  closed (snd (fst (CheckResponse r body))) = closed body
  /\ (200 <= StatusCode r <= 299 -> CheckResponse r body = (r, body, None))
  /\ (~ 200 <= StatusCode r <= 299 ->
      (closed body = false ->
       snd (fst (CheckResponse r body))
       = {| pending := []; failure := failure body; closed := false |})
      /\ (closed body = true \/ pending body = []
          \/ (exists e, failure body = Some e /\ unless_EOF e = Some e) ->
          fst (fst (CheckResponse r body)) = r
          /\ snd (CheckResponse r body)
             = Some (ptr_ErrorResponse
                       {| ErrorResponse_Response := Some r; Message := EmptyString |}))).
Proof.
  destruct (status_cases r) as [H2xx|Hother].
  - rewrite (CheckResponse_2xx _ _ H2xx). cbn [fst snd].
    split; [reflexivity|]. split; [reflexivity|contradiction].
  - rewrite !(CheckResponse_other _ _ Hother). cbn [fst snd].
    split; [|split; [contradiction|]].
    + unfold ioutil_ReadAll. cbn [fst].
      destruct (closed body) eqn:Hclosed; [exact Hclosed|exact Hclosed].
    + intros _. split.
      * intros Hopen. unfold ioutil_ReadAll, Body_rest. cbn [fst].
        rewrite Hopen. reflexivity.
      * intros Hnothing.
        assert (Hnone : snd (fst (ioutil_ReadAll body)) = EmptyString
                        \/ snd (ioutil_ReadAll body) <> None).
        { unfold ioutil_ReadAll, Body_end. cbn [fst snd].
          destruct (closed body) eqn:Hclosed; [left; reflexivity|].
          destruct Hnothing as [Habs|[Hempty|(e & Hfail & He)]]; [discriminate| |].
          - left. now rewrite Hempty.
          - right. rewrite Hfail. change (default io_EOF (Some e)) with e.
            rewrite He. discriminate. }
        rewrite (unmarshalled_nothing r body Hnone). split; reflexivity.
Qed.

(** ** Do *)

(** X7.  Whenever the transport returns a response, the body is
    closed when [Do] returns, whatever the status, the destination
    and the outcome of copying or decoding. *)
Theorem Do_closes_Body (c : Client) (req : http_Request) (v : destination)
    (resp : http_Response) (body : ReadCloser) :
  client c req = Responded resp body ->
  exists b, after_Body (Do c req v) = Some b /\ closed b = true.
Proof.
  intros Hrt. destruct (status_cases resp) as [H2xx|Hother].
  - rewrite (Do_2xx _ _ _ _ _ Hrt H2xx).
    destruct v as [|T [w|] target t]; eexists; split; reflexivity.
  - rewrite (Do_other _ _ _ _ _ Hrt Hother). eexists; split; reflexivity.
Qed.

(** X8.  Of the client, [Do] changes the [RateLimit] alone: the HTTP
    client, the base URL, the user agent and the two tokens are after
    every call what they were before. *)
Theorem Do_client_frame (c : Client) (req : http_Request) (v : destination) :
  client (after_c (Do c req v)) = client c
  /\ BaseURL (after_c (Do c req v)) = BaseURL c
  /\ UserAgent (after_c (Do c req v)) = UserAgent c
  /\ ConsumerToken (after_c (Do c req v)) = ConsumerToken c
  /\ ApiKey (after_c (Do c req v)) = ApiKey c.
Proof.
  destruct (client c req) as [resp body|resp err] eqn:Hrt.
  - destruct (Do_after_c c req v resp body Hrt) as [-> _]. repeat split.
  - rewrite (Do_Failed _ _ _ _ _ Hrt). repeat split.
Qed.

(** X9.  For a status outside 200 to 299 the destination is not
    touched, whatever it is, and the body, when the transport handed
    it over open, has been read to its end before it is closed. *)
Theorem Do_API_error_effects (c : Client) (req : http_Request) (v : destination)
    (resp : http_Response) (body : ReadCloser) :
  client c req = Responded resp body ->
  ~ 200 <= StatusCode resp <= 299 ->
  after_v (Do c req v) = v
  /\ (closed body = false ->
      after_Body (Do c req v)
      = Some {| pending := []; failure := failure body; closed := true |}).
Proof.
  intros Hrt Hother. rewrite (Do_other _ _ _ _ _ Hrt Hother). cbn [after_v after_Body].
  split; [reflexivity|]. intros Hopen. unfold ioutil_ReadAll. cbn [fst].
  rewrite Hopen. reflexivity.
Qed.

Lemma io_Copy_loop_None {W : Type} `{io_Writer W} (chunks : list string) :
  forall (dst : W) last written,
    snd (io_Copy_loop dst chunks last written) = None ->
    snd (fst (fst (io_Copy_loop dst chunks last written))) = [].
Proof.
  induction chunks as [|buf rest IH]; intros dst last written; [reflexivity|].
  cbn [io_Copy_loop]. destruct (0 <? len buf); [|apply IH].
  destruct (Write dst buf) as [[dst' nw] ew].
  destruct ((nw <? 0) || (len buf <? nw)); [discriminate|].
  destruct ew as [e|]; [discriminate|].
  destruct (negb (len buf =? nw)); [discriminate|apply IH].
Qed.

(** X10.  For a status from 200 to 299 and a destination that is a
    writer, a copy that ends without an error has read the body to
    its end: nothing is left pending when the body is closed. *)
Theorem Do_copy_reads_all (c : Client) (req : http_Request)
    (resp : http_Response) (body : ReadCloser)
    (T : Type) (w : io_Writer T) (target : json_Target T) (t : T) :
  client c req = Responded resp body ->
  200 <= StatusCode resp <= 299 ->
  snd (@io_Copy _ w t body) = None ->
  closed body = false
  /\ after_Body (Do c req (a_destination (Some w) target t))
     = Some {| pending := []; failure := failure body; closed := true |}.
Proof.
  intros Hrt H2xx Hcopy. rewrite (Do_2xx _ _ _ _ _ Hrt H2xx). cbn [after_Body].
  unfold io_Copy in *. destruct (closed body) eqn:Hclosed.
  - exfalso. cbn [io_Copy_loop] in Hcopy. unfold Body_end in Hcopy.
    rewrite Hclosed in Hcopy. discriminate.
  - split; [reflexivity|].
    pose proof (io_Copy_loop_None (pending body) t (Body_end body) 0) as Hrest.
    destruct (io_Copy_loop t (pending body) (Body_end body) 0) as [[[t' rest] n] e].
    cbn [fst snd] in *. rewrite (Hrest Hcopy). unfold Body_Close, Body_rest.
    cbn [pending failure closed]. reflexivity.
Qed.


(** X12.  [Do] returns no wrapper exactly when the transport fails,
    and then it returns an error; and when [Do] returns no error, a
    response came with a status from 200 to 299 and the wrapper
    around it is returned with its rate. *)
Theorem Do_returned_pair (c : Client) (req : http_Request) (v : destination) :
  (fst (returned (Do c req v)) = None <->
   exists resp err, client c req = Failed resp err)
  /\ (fst (returned (Do c req v)) = None -> snd (returned (Do c req v)) <> None)
  /\ (snd (returned (Do c req v)) = None ->
      exists resp body,
        client c req = Responded resp body
        /\ 200 <= StatusCode resp <= 299
        /\ fst (returned (Do c req v)) = Some (populateRate (fresh resp))).
Proof.
  destruct (client c req) as [resp body|resp err] eqn:Hrt.
  - destruct (Do_after_c c req v resp body Hrt) as [_ Hsome].
    split; [|split].
    + rewrite Hsome. split; [discriminate|].
      intros (resp' & err & Hfailed). discriminate.
    + rewrite Hsome. discriminate.
    + intros Hnil. exists resp, body. split; [reflexivity|].
      destruct (status_cases resp) as [H2xx|Hother].
      * split; [exact H2xx|]. now rewrite Hsome, (CheckResponse_2xx _ _ H2xx).
      * rewrite (Do_other _ _ _ _ _ Hrt Hother) in Hnil. discriminate.
  - rewrite (Do_Failed _ _ _ _ _ Hrt). cbn [returned fst snd]. split; [|split].
    + split; [|reflexivity]. intros _. now exists resp, err.
    + discriminate.
    + discriminate.
Qed.

(** ** NewRequest *)

Lemma NewRequest_Some (c : Client) (method path : string) (body : payload)
    (req : http_Request) :
  NewRequest c method path body = (Some req, None) ->
  exists req0, Request_Header req0 = ∅ /\ req = request_setup c req0.
Proof.
  unfold NewRequest. destruct (url_Parse path) as [rel|err]; [|discriminate].
  cbv zeta.
  destruct (match body with
            | nil_payload => inl EmptyString
            | some_payload b => json_Encode EmptyString b
            end) as [buf|err]; [|discriminate].
  unfold http_NewRequest. cbv zeta.
  destruct (negb (validMethod _)); [discriminate|].
  destruct (url_Parse (url_String (url_ResolveReference (BaseURL c) rel))) as [u|err];
    [|discriminate].
  intros [= <-]. eexists. split; [|reflexivity]. reflexivity.
Qed.

(** X13.  In a request that [NewRequest] returns, each of the five
    headers is read back by [Get] under any spelling that has the
    canonical form of its name, and [Get] finds nothing under any
    other name. *)
Theorem NewRequest_Header_Get (c : Client) (method path : string) (body : payload)
    (req : http_Request) (name : string) :
  NewRequest c method path body = (Some req, None) ->
  (CanonicalMIMEHeaderKey name = "X-Auth-Token"%string ->
   Header_Get (Request_Header req) name = ApiKey c)
  /\ (CanonicalMIMEHeaderKey name = "X-Consumer-Token"%string ->
      Header_Get (Request_Header req) name = ConsumerToken c)
  /\ (CanonicalMIMEHeaderKey name = "Content-Type"%string ->
      Header_Get (Request_Header req) name = "application/json"%string)
  /\ (CanonicalMIMEHeaderKey name = "Accept"%string ->
      Header_Get (Request_Header req) name = "application/json"%string)
  /\ (CanonicalMIMEHeaderKey name = "User-Agent"%string ->
      Header_Get (Request_Header req) name = "packngo/0.1.0"%string)
  /\ (CanonicalMIMEHeaderKey name <> "X-Auth-Token"%string ->
      CanonicalMIMEHeaderKey name <> "X-Consumer-Token"%string ->
      CanonicalMIMEHeaderKey name <> "Content-Type"%string ->
      CanonicalMIMEHeaderKey name <> "Accept"%string ->
      CanonicalMIMEHeaderKey name <> "User-Agent"%string ->
      Header_Get (Request_Header req) name = EmptyString).
Proof.
  intros Hreq. destruct (NewRequest_Some _ _ _ _ _ Hreq) as (req0 & Hempty & ->).
  destruct (request_setup_Header c req0 Hempty) as [-> _].
  unfold Header_Get.
  repeat split.
  1-5: intros ->; reflexivity.
  intros H1 H2 H3 H4 H5.
  rewrite !lookup_insert_ne by congruence. now rewrite lookup_empty.
Qed.

(** X14.  [NewRequest] reads three fields of the client and no
    other: two clients with the same base URL and the same two
    tokens build the same request, whatever their [UserAgent], their
    [RateLimit] and their HTTP client. *)
Theorem NewRequest_client_fields (c c' : Client) (method path : string) (body : payload) :
  BaseURL c = BaseURL c' ->
  ApiKey c = ApiKey c' ->
  ConsumerToken c = ConsumerToken c' ->
  NewRequest c method path body = NewRequest c' method path body.
Proof.
  intros Hbase Hkey Htoken. unfold NewRequest, request_setup.
  now rewrite Hbase, Hkey, Htoken.
Qed.

(** ** NewClient *)

(** X15.  Whatever transport the default client had, [NewClient]
    gives it a transport that skips the verification of
    certificates, a new object that did not exist before, and changes
    nothing else of it; the transports that existed stay as they
    were.  A second call replaces that transport by yet another one,
    of the same settings, and leaves the first in existence.  The
    clients of two calls send through the same HTTP client, the
    default one in the state it is in when they are used. *)
Theorem NewClient_DefaultClient (http : net_http) (consumerToken apiKey : string) :
  let skipping := {| TLSClientConfig := Some {| InsecureSkipVerify := true |} |} in
  let http1 := fst (NewClient http consumerToken apiKey) in
  exists transport,
    Transport (DefaultClient http1) = ptr_Transport transport
    /\ Transports http !! transport = None
    /\ Transports http1 !! transport = Some skipping
    /\ Timeout (DefaultClient http1) = Timeout (DefaultClient http)
    /\ (forall address t,
          Transports http !! address = Some t -> Transports http1 !! address = Some t)
    /\ (forall consumerToken' apiKey',
          let http2 := fst (NewClient http1 consumerToken' apiKey') in
          exists transport',
            Transport (DefaultClient http2) = ptr_Transport transport'
            /\ transport' <> transport
            /\ Transports http2 !! transport' = Some skipping
            /\ Transports http2 !! transport = Some skipping
            /\ Timeout (DefaultClient http2) = Timeout (DefaultClient http))
    /\ (forall consumerToken' apiKey' now u,
          url_Parse baseURL = inl u ->
          exists c c',
            snd (NewClient http consumerToken apiKey) now = with_BaseURL c
            /\ snd (NewClient http1 consumerToken' apiKey') now = with_BaseURL c'
            /\ client c = http_Client_Do now
            /\ client c' = client c).
Proof.
  intros skipping http1. exists (length (Transports http)).
  assert (Hnew : forall l : list http_Transport, (l ++ [skipping]) !! length l = Some skipping)
    by (intros l; now apply list_lookup_middle).
  split; [reflexivity|]. split; [now apply lookup_ge_None_2|].
  split; [apply Hnew|]. split; [reflexivity|]. split.
  { intros address t Hold. cbn [http1 NewClient fst Transports].
    now apply lookup_app_l_Some. }
  split.
  - intros consumerToken' apiKey' http2.
    exists (length (Transports http1)). split; [reflexivity|]. split.
    + cbn [http1 NewClient fst Transports]. rewrite length_app. cbn [length].
      apply Nat.neq_sym, Nat.lt_neq, Nat.lt_add_pos_r, Nat.lt_0_1.
    + split; [apply Hnew|]. split; [|reflexivity].
      cbn [http2 NewClient fst Transports]. apply lookup_app_l_Some. apply Hnew.
  - intros consumerToken' apiKey' now u Hu. unfold NewClient. cbn [snd]. rewrite Hu.
    eexists _, _. repeat split.
Qed.

(** X16.  When the base URL parses, the client of [NewClient] has it
    as its [BaseURL] and starts with a zero [RateLimit], and every
    request it builds carries the API key given to [NewClient] as its
    auth token, the consumer token as its consumer token and the
    fixed user agent. *)
Theorem NewClient_NewRequest (d now : net_http) (consumerToken apiKey : string)
    (u : url_URL) (method path : string) (body : payload) (req : http_Request) :
  url_Parse baseURL = inl u ->
  exists c,
    snd (NewClient d consumerToken apiKey) now = with_BaseURL c
    /\ BaseURL c = u
    /\ RateLimit c = Rate_zero
    /\ (NewRequest c method path body = (Some req, None) ->
        Header_Get (Request_Header req) "X-Auth-Token" = apiKey
        /\ Header_Get (Request_Header req) "X-Consumer-Token" = consumerToken
        /\ Header_Get (Request_Header req) "User-Agent" = "packngo/0.1.0"%string).
Proof.
  intros Hu. unfold NewClient. cbn [snd]. rewrite Hu. eexists.
  split; [reflexivity|]. split; [reflexivity|]. split; [reflexivity|].
  intros Hreq. destruct (NewRequest_Some _ _ _ _ _ Hreq) as (req0 & Hempty & ->).
  match goal with
  | |- context [request_setup ?c req0] =>
      destruct (request_setup_Header c req0 Hempty) as [-> _]
  end.
  repeat split.
Qed.

End packngo.

(** * Worked examples *)

(** C2: the header values [100], [99] and [0] give the snapshot 100,
    99 and no reset time. *)
Lemma populateRate_snapshot_witness :
  numeral "100" = Some 100
  /\ Response_Rate
       (populateRate
          (fresh (example_Response 200
                    (example_Header [("X-RateLimit-Limit", "100");
                                     ("X-RateLimit-Remaining", "99");
                                     ("X-RateLimit-Reset", "0")]%string))))
     = {| RequestLimit := 100; RequestsRemaining := 99; Reset := {| Time := time_zero |} |}
  /\ header_count "100" = 100.
Proof.
  split; [reflexivity|].
  destruct (populateRate_snapshot
              (example_Response 200
                 (example_Header [("X-RateLimit-Limit", "100");
                                  ("X-RateLimit-Remaining", "99");
                                  ("X-RateLimit-Reset", "0")]%string)))
    as (Hrate & Hvalid & _).
  split.
  - rewrite Hrate. vm_compute. reflexivity.
  - apply (Hvalid "100"%string 100); [reflexivity|lia].
Defined.

(** C2, as first stated, fails: a limit header of twenty nines and a
    letter spells no integer, and yet the field is not left at zero
    but set to the upper bound of [int64]; twenty nines alone make
    the parsing fail as well, with the same field. *)
Lemma populateRate_keeps_overflow :
  (numeral "99999999999999999999x" = None
   /\ RequestLimit
        (Response_Rate
           (populateRate
              (fresh (example_Response 200
                        (example_Header
                           [("X-RateLimit-Limit", "99999999999999999999x")]%string)))))
      = 9223372036854775807)
  /\ (Atoi "99999999999999999999" = (9223372036854775807, Some ErrRange)
      /\ RequestLimit
           (Response_Rate
              (populateRate
                 (fresh (example_Response 200
                           (example_Header
                              [("X-RateLimit-Limit", "99999999999999999999")]%string)))))
         = 9223372036854775807).
Proof. repeat split; vm_compute; reflexivity. Qed.

(** C7: a 404 on [GET /plans], with a message and without one, and
    the same for a request that holds no URL. *)
Lemma Error_text_witness :
  Error reduced_String
    {| ErrorResponse_Response := Some (example_Response 404 ∅); Message := "Not found" |}
  = done "GET https://api.packet.net/plans: 404 Not found"%string
  /\ Error reduced_String
       {| ErrorResponse_Response := Some (example_Response 404 ∅);
          Message := EmptyString |}
     = done "GET https://api.packet.net/plans: 404 "%string
  /\ Error reduced_String
       {| ErrorResponse_Response :=
            Some {| StatusCode := 404; Header := ∅; Request := Some zero_Request |};
          Message := "Not found" |}
     = done " <nil>: 404 Not found"%string.
Proof.
  split; [|split].
  - destruct (Error_text reduced_String
                {| ErrorResponse_Response := Some (example_Response 404 ∅);
                   Message := "Not found" |}
                (example_Response 404 ∅) example_Request eq_refl eq_refl) as (Htext & _).
    rewrite Htext. reflexivity.
  - destruct (Error_text reduced_String
                {| ErrorResponse_Response := Some (example_Response 404 ∅);
                   Message := EmptyString |}
                (example_Response 404 ∅) example_Request eq_refl eq_refl)
      as (_ & Hempty & _).
    rewrite (Hempty eq_refl). reflexivity.
  - destruct (Error_text reduced_String
                {| ErrorResponse_Response :=
                     Some {| StatusCode := 404; Header := ∅; Request := Some zero_Request |};
                   Message := "Not found" |}
                {| StatusCode := 404; Header := ∅; Request := Some zero_Request |}
                zero_Request eq_refl eq_refl) as (Htext & _).
    rewrite Htext. reflexivity.
Defined.

(** C7, as first stated, fails: an [ErrorResponse] whose [Response] is
    nil has no text, the call of [Error] panics, and so does the call
    on one whose response holds no request.  [CheckResponse] itself
    returns such structures: for a 500 with the body
    [{"response":null}], and for one with the body
    [{"response":{"Request":null}}]. *)
Lemma Error_nil_Response :
  Error reduced_String {| ErrorResponse_Response := None; Message := "Not found" |}
  = panic_nil_dereference
  /\ Error reduced_String
       {| ErrorResponse_Response :=
            Some {| StatusCode := 500; Header := ∅; Request := None |};
          Message := "Not found" |}
     = panic_nil_dereference
  /\ snd (CheckResponse reduced_Unmarshal (example_Response 500 ∅)
            (example_Body [example_null_text]))
     = Some (ptr_ErrorResponse
               {| ErrorResponse_Response := None; Message := EmptyString |})
  /\ snd (CheckResponse reduced_Unmarshal (example_Response 500 ∅)
            (example_Body [example_no_Request_text]))
     = Some (ptr_ErrorResponse
               {| ErrorResponse_Response :=
                    Some {| StatusCode := 500; Header := ∅; Request := None |};
                  Message := EmptyString |})
  /\ Error reduced_String {| ErrorResponse_Response := None; Message := EmptyString |}
     = panic_nil_dereference.
Proof. repeat split; vm_compute; reflexivity. Qed.

(** C1: a 422 with a message in its body. *)
Lemma CheckResponse_Do_errors_witness :
  ~ 200 <= StatusCode (example_Response 422 example_rate_Header) <= 299
  /\ client (example_Client (answering 422 example_rate_Header [example_error_text]))
       example_Request
     = Responded (example_Response 422 example_rate_Header)
         (example_Body [example_error_text])
  /\ snd (returned
            (Do reduced_Unmarshal
               (example_Client (answering 422 example_rate_Header [example_error_text]))
               example_Request (a_destination None bool_Target false)))
     = Some (ptr_ErrorResponse
               {| ErrorResponse_Response := Some (example_Response 422 example_rate_Header);
                  Message := "invalid hostname" |})
  /\ snd (CheckResponse reduced_Unmarshal (example_Response 422 example_rate_Header)
            (example_Body [example_error_text]))
     = Some (ptr_ErrorResponse
               {| ErrorResponse_Response := Some (example_Response 422 example_rate_Header);
                  Message := "invalid hostname" |})
  /\ option_map StatusCode
       (ErrorResponse_Response
          (snd (fst (reduced_Unmarshal example_error_text
                       (example_Response 422 example_rate_Header)
                       {| ErrorResponse_Response :=
                            Some (example_Response 422 example_rate_Header);
                          Message := EmptyString |}))))
     = Some 422.
Proof.
  assert (Hother : ~ 200 <= StatusCode (example_Response 422 example_rate_Header) <= 299)
    by (cbn; lia).
  split; [exact Hother|]. split; [reflexivity|].
  destruct (CheckResponse_Do_errors reduced_Unmarshal
              (example_Response 422 example_rate_Header)
              (example_Body [example_error_text])) as (_ & HCheck & HDo).
  destruct (HDo (example_Client (answering 422 example_rate_Header [example_error_text]))
              example_Request (a_destination None bool_Target false) eq_refl) as [Herr _].
  destruct (HCheck Hother) as (Hreturned & Hkept & _).
  split; [rewrite (Herr Hother); reflexivity|].
  split; [rewrite Hreturned; reflexivity|].
  destruct (Hkept eq_refl) as [_ Hstatus]. exact Hstatus.
Defined.

(** C1, as first stated, fails: with a status of 200 or 204 [Do]
    still returns an error when the body does not decode into the
    destination. *)
Lemma Do_2xx_decode_error :
  snd (returned
         (Do reduced_Unmarshal (example_Client (answering 204 ∅ []))
            example_Request (a_destination None bool_Target false)))
  = Some io_EOF
  /\ snd (returned
            (Do reduced_Unmarshal (example_Client (answering 200 ∅ ["<html>"%string]))
               example_Request (a_destination None bool_Target false)))
     <> None.
Proof. split; [vm_compute; reflexivity|]. vm_compute. discriminate. Qed.

(** C3: a 500 that advertises 99 of 100 requests, with the body
    [{"response":{"StatusCode":200,"Header":null}}].  The rate is
    recorded as the headers told it, though [Do] returns an error and
    though the decoding of the body leaves the response that the
    wrapper refers to with the status 200 and without headers. *)
Lemma Do_records_Rate_witness :
  client (example_Client (answering 500 example_rate_Header [example_rewriting_text]))
    example_Request
  = Responded (example_Response 500 example_rate_Header)
      (example_Body [example_rewriting_text])
  /\ RateLimit
       (after_c
          (Do reduced_Unmarshal
             (example_Client (answering 500 example_rate_Header [example_rewriting_text]))
             example_Request nil_destination))
     = {| RequestLimit := 100; RequestsRemaining := 99; Reset := {| Time := time_zero |} |}
  /\ fst (returned
            (Do reduced_Unmarshal
               (example_Client (answering 500 example_rate_Header [example_rewriting_text]))
               example_Request nil_destination))
     = Some {| Response_Response := example_Response 200 ∅;
               Response_Rate :=
                 {| RequestLimit := 100; RequestsRemaining := 99;
                    Reset := {| Time := time_zero |} |} |}
  /\ exists e,
       snd (returned
              (Do reduced_Unmarshal
                 (example_Client
                    (answering 500 example_rate_Header [example_rewriting_text]))
                 example_Request nil_destination))
       = Some (ptr_ErrorResponse e).
Proof.
  split; [reflexivity|].
  destruct (Do_records_Rate reduced_Unmarshal
              (example_Client (answering 500 example_rate_Header [example_rewriting_text]))
              example_Request nil_destination
              (example_Response 500 example_rate_Header)
              (example_Body [example_rewriting_text]) eq_refl)
    as (Hrate & Hwrapper & _ & _ & Herr).
  split; [rewrite Hrate; vm_compute; reflexivity|].
  split; [rewrite Hwrapper; vm_compute; reflexivity|].
  apply Herr. cbn. lia.
Defined.

(** C4: a connection that is refused. *)
Lemma Do_transport_failure_witness :
  client (example_Client refusing) example_Request
  = Failed None (errorString "dial tcp: connection refused")
  /\ returned (Do reduced_Unmarshal (example_Client refusing) example_Request nil_destination)
     = (None, Some (errorString "dial tcp: connection refused"))
  /\ RateLimit
       (after_c (Do reduced_Unmarshal (example_Client refusing) example_Request
                   nil_destination))
     = {| RequestLimit := 60; RequestsRemaining := 7;
          Reset := {| Time := time_Unix 1700000000 |} |}.
Proof.
  split; [reflexivity|].
  destruct (Do_transport_failure reduced_Unmarshal (example_Client refusing) example_Request
              nil_destination None (errorString "dial tcp: connection refused") eq_refl)
    as (Hret & _ & Hrate & _).
  split; [exact Hret|]. rewrite Hrate. reflexivity.
Defined.

(** C10: over the rate 60, 7 and a reset time of an earlier exchange,
    a response that tells a limit of 100 and 99 requests remaining,
    and no reset time, leaves 100, 99 and no reset time; and a
    response without rate headers leaves the zero rate. *)
Lemma Do_replaces_RateLimit_witness :
  client (example_Client (answering 200 example_rate_Header [])) example_Request
  = Responded (example_Response 200 example_rate_Header) (example_Body [])
  /\ Header_Get (Header (example_Response 200 example_rate_Header)) headerRateLimit
     = FormatInt 100
  /\ RateLimit (example_Client (answering 200 example_rate_Header []))
     = {| RequestLimit := 60; RequestsRemaining := 7;
          Reset := {| Time := time_Unix 1700000000 |} |}
  /\ RateLimit
       (after_c (Do reduced_Unmarshal (example_Client (answering 200 example_rate_Header []))
                   example_Request nil_destination))
     = {| RequestLimit := 100; RequestsRemaining := 99; Reset := {| Time := time_zero |} |}
  /\ RateLimit
       (after_c (Do reduced_Unmarshal (example_Client (answering 200 ∅ [])) example_Request
                   nil_destination))
     = Rate_zero.
Proof.
  split; [reflexivity|]. split; [reflexivity|]. split; [reflexivity|].
  destruct (Do_replaces_RateLimit reduced_Unmarshal
              (example_Client (answering 200 example_rate_Header []))
              example_Request nil_destination
              (example_Response 200 example_rate_Header) (example_Body []) eq_refl)
    as (_ & _ & _ & Hpresent & _ & _ & Hreset).
  destruct (Hpresent 100 ltac:(lia)) as (Hlimit & _).
  destruct (Hpresent 99 ltac:(lia)) as (_ & Hremaining & _).
  destruct (Do_replaces_RateLimit reduced_Unmarshal (example_Client (answering 200 ∅ []))
              example_Request nil_destination (example_Response 200 ∅) (example_Body [])
              eq_refl) as (Hc & _).
  split; [|rewrite Hc; reflexivity].
  pose proof (Hlimit eq_refl) as H100. pose proof (Hremaining eq_refl) as H99.
  pose proof (Hreset eq_refl) as Hunset.
  destruct (RateLimit _) as [limit remaining reset].
  cbn [RequestLimit RequestsRemaining Reset] in *. now subst.
Defined.

(** C8: the body of a 200 is left unread when no destination is given. *)
Lemma Do_nil_destination_witness :
  client (example_Client (answering 200 ∅ ["{}"%string])) example_Request
  = Responded (example_Response 200 ∅) (example_Body ["{}"%string])
  /\ 200 <= StatusCode (example_Response 200 ∅) <= 299
  /\ after_Body
       (Do reduced_Unmarshal (example_Client (answering 200 ∅ ["{}"%string]))
          example_Request nil_destination)
     = Some {| pending := ["{}"%string]; failure := None; closed := true |}.
Proof.
  assert (H2xx : 200 <= StatusCode (example_Response 200 ∅) <= 299) by (cbn; lia).
  split; [reflexivity|]. split; [exact H2xx|].
  destruct (Do_nil_destination reduced_Unmarshal
              (example_Client (answering 200 ∅ ["{}"%string])) example_Request
              (example_Response 200 ∅) (example_Body ["{}"%string]) eq_refl H2xx)
    as (Hbody & _).
  rewrite Hbody. reflexivity.
Defined.

(** C8, as first stated, fails: after [Do] the two bytes of the body
    are still pending, the stream is closed and not drained. *)
Lemma Do_nil_destination_not_drained :
  option_map pending
    (after_Body
       (Do reduced_Unmarshal (example_Client (answering 200 ∅ ["{}"%string]))
          example_Request nil_destination))
  = Some ["{}"%string]
  /\ snd (returned
            (Do reduced_Unmarshal (example_Client (answering 200 ∅ ["{}"%string]))
               example_Request nil_destination))
     = None.
Proof. split; vm_compute; reflexivity. Qed.

(** C5: a body that is no JSON goes to a buffer byte for byte. *)
Lemma Do_raw_sink_witness :
  client (example_Client (answering 200 ∅ ["not "; "json"]%string)) example_Request
  = Responded (example_Response 200 ∅) (example_Body ["not "; "json"]%string)
  /\ 200 <= StatusCode (example_Response 200 ∅) <= 299
  /\ closed (example_Body ["not "; "json"]%string) = false
  /\ after_v
       (Do reduced_Unmarshal (example_Client (answering 200 ∅ ["not "; "json"]%string))
          example_Request
          (a_destination (Some bytes_Buffer_Writer) (opaque_Target bytes_Buffer)
             {| Bytes := EmptyString |}))
     = a_destination (Some bytes_Buffer_Writer) (opaque_Target bytes_Buffer)
         {| Bytes := "not json" |}
  /\ snd (returned
            (Do reduced_Unmarshal (example_Client (answering 200 ∅ ["not "; "json"]%string))
               example_Request
               (a_destination (Some bytes_Buffer_Writer) (opaque_Target bytes_Buffer)
                  {| Bytes := EmptyString |})))
     = None.
Proof.
  assert (H2xx : 200 <= StatusCode (example_Response 200 ∅) <= 299) by (cbn; lia).
  split; [reflexivity|]. split; [exact H2xx|]. split; [reflexivity|].
  destruct (Do_raw_sink reduced_Unmarshal
              (example_Client (answering 200 ∅ ["not "; "json"]%string)) example_Request
              (example_Response 200 ∅) (example_Body ["not "; "json"]%string) eq_refl H2xx)
    as (_ & _ & _ & HBuffer).
  exact (HBuffer (opaque_Target bytes_Buffer) {| Bytes := EmptyString |} eq_refl).
Defined.

(** C9: a file with room for five bytes takes the head of the body,
    the copy fails, and [Do] returns a nil error. *)
Lemma Do_copy_failure_discarded_witness :
  client (example_Client (answering 200 ∅ ["hello world"%string])) example_Request
  = Responded (example_Response 200 ∅) (example_Body ["hello world"%string])
  /\ 200 <= StatusCode (example_Response 200 ∅) <= 299
  /\ snd (@io_Copy _ os_File_Writer {| contents := EmptyString; room := 5 |}
            (example_Body ["hello world"%string]))
     = Some (errorString "write: no space left on device")
  /\ snd (returned
            (Do reduced_Unmarshal (example_Client (answering 200 ∅ ["hello world"%string]))
               example_Request
               (a_destination (Some os_File_Writer) (opaque_Target os_File)
                  {| contents := EmptyString; room := 5 |})))
     = None
  /\ after_v
       (Do reduced_Unmarshal (example_Client (answering 200 ∅ ["hello world"%string]))
          example_Request
          (a_destination (Some os_File_Writer) (opaque_Target os_File)
             {| contents := EmptyString; room := 5 |}))
     = a_destination (Some os_File_Writer) (opaque_Target os_File)
         {| contents := "hello"; room := 0 |}.
Proof.
  assert (H2xx : 200 <= StatusCode (example_Response 200 ∅) <= 299) by (cbn; lia).
  split; [reflexivity|]. split; [exact H2xx|]. split; [reflexivity|].
  destruct (Do_copy_failure_discarded reduced_Unmarshal
              (example_Client (answering 200 ∅ ["hello world"%string])) example_Request
              (example_Response 200 ∅) (example_Body ["hello world"%string])
              os_File os_File_Writer (opaque_Target os_File)
              {| contents := EmptyString; room := 5 |} eq_refl H2xx
              ltac:(discriminate)) as [Herr Hv].
  split; [exact Herr|]. rewrite Hv. reflexivity.
Defined.

(** C6: [GET plans] against the base URL. *)
Lemma NewRequest_outcome_witness :
  exists req,
    NewRequest reduced_Parse reduced_ResolveReference reduced_String
      (example_Client refusing) "GET" "plans" nil_payload
    = (Some req, None)
    /\ option_map reduced_String (URL req) = Some "https://api.packet.net/plans"%string
    /\ URL req
       = Some (reduced_ResolveReference example_BaseURL
                 {| Scheme := EmptyString; Opaque := EmptyString; Host := EmptyString;
                    Path := "plans"; RawQuery := EmptyString; Fragment := EmptyString |})
    /\ Header_Get (Request_Header req) "X-Auth-Token" = "key"%string
    /\ Header_Get (Request_Header req) "User-Agent" = "packngo/0.1.0"%string
    /\ size (Request_Header req) = 5%nat.
Proof.
  pose proof (NewRequest_outcome reduced_Parse reduced_ResolveReference reduced_String
                (example_Client refusing) "GET" "plans" nil_payload) as Hout.
  change (reduced_Parse "plans") with
    (@inl url_URL error
       {| Scheme := EmptyString; Opaque := EmptyString; Host := EmptyString;
          Path := "plans"; RawQuery := EmptyString; Fragment := EmptyString |}) in Hout.
  cbv beta iota zeta in Hout.
  change (validMethod (if String.eqb "GET" EmptyString then "GET"%string else "GET"%string))
    with true in Hout.
  change (reduced_Parse _) with
    (@inl url_URL error
       (reduced_ResolveReference example_BaseURL
          {| Scheme := EmptyString; Opaque := EmptyString; Host := EmptyString;
             Path := "plans"; RawQuery := EmptyString; Fragment := EmptyString |})) in Hout.
  cbv beta iota zeta in Hout.
  destruct Hout as (req & Hreq & _ & _ & Hsame & Hfive & Hsize & _).
  exists req. split; [exact Hreq|].
  rewrite (Hsame eq_refl eq_refl), Hfive. repeat split; reflexivity.
Defined.

(** C6, as first stated, fails: the path parses and there is no body
    to marshal, and yet no request is returned, because the method is
    no token. *)
Lemma NewRequest_invalid_method :
  reduced_Parse "plans"
  = inl {| Scheme := EmptyString; Opaque := EmptyString; Host := EmptyString;
           Path := "plans"; RawQuery := EmptyString; Fragment := EmptyString |}
  /\ NewRequest reduced_Parse reduced_ResolveReference reduced_String
       (example_Client refusing) "BAD METHOD" "plans" nil_payload
     = (None, Some (errorString ("net/http: invalid method " +:+ quoted "BAD METHOD"))).
Proof. split; vm_compute; reflexivity. Qed.

(** ** Worked instances of the further properties *)

(** X1: a response that tells the limit, the remaining count and the
    reset time. *)
Lemma populateRate_decimal_witness :
  Header_Get (Header (example_Response 200 example_reset_Header)) headerRateReset
  = FormatInt 1700000000
  /\ Response_Rate (populateRate (fresh (example_Response 200 example_reset_Header)))
     = {| RequestLimit := 100; RequestsRemaining := 99;
          Reset := {| Time := time_Unix 1700000000 |} |}.
Proof.
  split; [reflexivity|].
  exact (populateRate_decimal (example_Response 200 example_reset_Header)
           100 99 1700000000 ltac:(lia) ltac:(lia) ltac:(lia) eq_refl eq_refl eq_refl).
Defined.

(** X2: over the rate of an earlier exchange, a limit header that
    spells no integer gives zero, and the remaining count and the
    reset time, whose headers are absent, are kept. *)
Lemma populateRate_earlier_Rate_witness :
  RequestLimit
    (Response_Rate
       (populateRate
          {| Response_Response :=
               example_Response 200 (example_Header [("X-RateLimit-Limit", "abc")]%string);
             Response_Rate := RateLimit (example_Client refusing) |})) = 0
  /\ RequestsRemaining
       (Response_Rate
          (populateRate
             {| Response_Response :=
                  example_Response 200 (example_Header [("X-RateLimit-Limit", "abc")]%string);
                Response_Rate := RateLimit (example_Client refusing) |})) = 7
  /\ Reset
       (Response_Rate
          (populateRate
             {| Response_Response :=
                  example_Response 200 (example_Header [("X-RateLimit-Limit", "abc")]%string);
                Response_Rate := RateLimit (example_Client refusing) |}))
     = {| Time := time_Unix 1700000000 |}.
Proof.
  destruct (populateRate_earlier_Rate
              {| Response_Response :=
                   example_Response 200 (example_Header [("X-RateLimit-Limit", "abc")]%string);
                 Response_Rate := RateLimit (example_Client refusing) |})
    as (_ & Hremaining & _ & _ & Hlimit & Hreset & _).
  split; [apply Hlimit; [vm_compute; discriminate|reflexivity|reflexivity]|].
  split; [apply Hremaining; reflexivity|apply Hreset; reflexivity].
Defined.

(** X4: the limit header added twice in lower case. *)
Lemma populateRate_Header_spelling_witness :
  CanonicalMIMEHeaderKey "x-ratelimit-limit" = CanonicalMIMEHeaderKey headerRateLimit
  /\ RequestLimit
       (Response_Rate
          (populateRate
             (fresh {| StatusCode := 200;
                       Header := Header_Add (Header_Add ∅ "x-ratelimit-limit" "100")
                                   "x-ratelimit-limit" "5";
                       Request := Some example_Request |}))) = 100.
Proof.
  split; [reflexivity|].
  rewrite (proj1 (populateRate_Header_spelling 200 (Some example_Request))
             ∅ "x-ratelimit-limit" "100" "5" eq_refl (lookup_empty _)).
  reflexivity.
Defined.

(** X5: a 404 without a body. *)
Lemma CheckResponse_Error_no_body_witness :
  exists e,
    snd (CheckResponse reduced_Unmarshal (example_Response 404 ∅) (example_Body []))
    = Some (ptr_ErrorResponse e)
    /\ Error reduced_String e = done "GET https://api.packet.net/plans: 404 "%string.
Proof.
  destruct (CheckResponse_Error_no_body reduced_String reduced_Unmarshal
              (example_Response 404 ∅) (example_Body [])
              ltac:(cbn; lia) eq_refl) as (e & He & _ & _ & Htext & _).
  exists e. split; [exact He|]. rewrite (Htext example_Request eq_refl). reflexivity.
Defined.

(** X6: the check of a 422 reads the body to its end and finds the
    message; on a body that was closed before, it reads nothing and
    leaves the message empty. *)
Lemma CheckResponse_reads_Body_witness :
  snd (CheckResponse reduced_Unmarshal (example_Response 422 ∅)
         (example_Body [example_error_text]))
  = Some (ptr_ErrorResponse {| ErrorResponse_Response := Some (example_Response 422 ∅);
                               Message := "invalid hostname" |})
  /\ snd (fst (CheckResponse reduced_Unmarshal (example_Response 422 ∅)
                 (example_Body [example_error_text])))
     = {| pending := []; failure := None; closed := false |}
  /\ snd (CheckResponse reduced_Unmarshal (example_Response 422 ∅)
            (Body_Close (example_Body [example_error_text])))
     = Some (ptr_ErrorResponse {| ErrorResponse_Response := Some (example_Response 422 ∅);
                                  Message := EmptyString |}).
Proof.
  split; [vm_compute; reflexivity|]. split.
  - exact (proj1 (proj2 (proj2 (CheckResponse_reads_Body reduced_Unmarshal
                                  (example_Response 422 ∅)
                                  (example_Body [example_error_text])))
                    ltac:(cbn; lia)) eq_refl).
  - exact (proj2 (proj2 (proj2 (proj2 (CheckResponse_reads_Body reduced_Unmarshal
                                         (example_Response 422 ∅)
                                         (Body_Close (example_Body [example_error_text]))))
                           ltac:(cbn; lia)) (or_introl eq_refl))).
Defined.

(** X7: a 200 and no destination. *)
Lemma Do_closes_Body_witness :
  exists b,
    after_Body
      (Do reduced_Unmarshal (example_Client (answering 200 ∅ ["hello"%string]))
         example_Request nil_destination) = Some b
    /\ closed b = true.
Proof.
  exact (Do_closes_Body reduced_Unmarshal
           (example_Client (answering 200 ∅ ["hello"%string]))
           example_Request nil_destination
           (example_Response 200 ∅) (example_Body ["hello"%string]) eq_refl).
Defined.

(** X9: a 422 with a destination of type [bool]. *)
Lemma Do_API_error_effects_witness :
  after_v
    (Do reduced_Unmarshal (example_Client (answering 422 ∅ [example_error_text]))
       example_Request (a_destination None bool_Target false))
  = a_destination None bool_Target false
  /\ after_Body
       (Do reduced_Unmarshal (example_Client (answering 422 ∅ [example_error_text]))
          example_Request (a_destination None bool_Target false))
     = Some {| pending := []; failure := None; closed := true |}.
Proof.
  destruct (Do_API_error_effects reduced_Unmarshal
              (example_Client (answering 422 ∅ [example_error_text]))
              example_Request (a_destination None bool_Target false)
              (example_Response 422 ∅) (example_Body [example_error_text])
              eq_refl ltac:(cbn; lia)) as [Hv Hbody].
  split; [exact Hv|exact (Hbody eq_refl)].
Defined.

(** X10: a body of two chunks copied into a buffer. *)
Lemma Do_copy_reads_all_witness :
  snd (@io_Copy _ bytes_Buffer_Writer {| Bytes := EmptyString |}
         (example_Body ["hello "; "world"]%string)) = None
  /\ after_Body
       (Do reduced_Unmarshal
          (example_Client (answering 200 ∅ ["hello "; "world"]%string)) example_Request
          (a_destination (Some bytes_Buffer_Writer) (opaque_Target bytes_Buffer)
             {| Bytes := EmptyString |}))
     = Some {| pending := []; failure := None; closed := true |}.
Proof.
  split; [reflexivity|].
  exact (proj2 (Do_copy_reads_all reduced_Unmarshal
                  (example_Client (answering 200 ∅ ["hello "; "world"]%string))
                  example_Request
                  (example_Response 200 ∅) (example_Body ["hello "; "world"]%string)
                  bytes_Buffer bytes_Buffer_Writer (opaque_Target bytes_Buffer)
                  {| Bytes := EmptyString |} eq_refl ltac:(cbn; lia) eq_refl)).
Defined.


(** X12: a call that returns no error. *)
Lemma Do_returned_pair_witness :
  exists resp body,
    client (example_Client (answering 200 example_rate_Header [])) example_Request
    = Responded resp body
    /\ 200 <= StatusCode resp <= 299
    /\ fst (returned
              (Do reduced_Unmarshal (example_Client (answering 200 example_rate_Header []))
                 example_Request nil_destination))
       = Some (populateRate (fresh resp)).
Proof.
  exact (proj2 (proj2 (Do_returned_pair reduced_Unmarshal
                         (example_Client (answering 200 example_rate_Header []))
                         example_Request nil_destination)) eq_refl).
Defined.

(** X13: the auth token read back in lower case, and no [Host] header. *)
Lemma NewRequest_Header_Get_witness :
  exists req,
    NewRequest reduced_Parse reduced_ResolveReference reduced_String
      (example_Client refusing) "GET" "plans" nil_payload
    = (Some req, None)
    /\ Header_Get (Request_Header req) "x-auth-token" = "key"%string
    /\ Header_Get (Request_Header req) "Host" = EmptyString.
Proof.
  eexists. split; [reflexivity|].
  split.
  - exact (proj1 (NewRequest_Header_Get reduced_Parse reduced_ResolveReference
                    reduced_String (example_Client refusing) "GET" "plans" nil_payload
                    _ "x-auth-token" eq_refl) eq_refl).
  - apply (NewRequest_Header_Get reduced_Parse reduced_ResolveReference
             reduced_String (example_Client refusing) "GET" "plans" nil_payload
             _ "Host" eq_refl); vm_compute; discriminate.
Defined.

(** X14: two clients that differ in the user agent, the rate and the
    transport. *)
Lemma NewRequest_client_fields_witness :
  NewRequest reduced_Parse reduced_ResolveReference reduced_String
    (example_Client refusing) "GET" "plans" nil_payload
  = NewRequest reduced_Parse reduced_ResolveReference reduced_String
      {| client := answering 200 ∅ []; BaseURL := example_BaseURL;
         UserAgent := "curl/8.0"; ConsumerToken := "consumer"; ApiKey := "key";
         RateLimit := Rate_zero |}
      "GET" "plans" nil_payload.
Proof.
  exact (NewRequest_client_fields reduced_Parse reduced_ResolveReference reduced_String
           (example_Client refusing)
           {| client := answering 200 ∅ []; BaseURL := example_BaseURL;
              UserAgent := "curl/8.0"; ConsumerToken := "consumer"; ApiKey := "key";
              RateLimit := Rate_zero |}
           "GET" "plans" nil_payload eq_refl eq_refl eq_refl).
Defined.

(** X15: a default client whose transport the program had set, and
    one transport in existence.  [NewClient] makes a second transport
    for the default client, and a further call a third. *)
Lemma NewClient_DefaultClient_witness :
  reduced_Parse baseURL = inl example_BaseURL
  /\ DefaultClient
       (fst (NewClient reduced_Parse reduced_Client_Do
               {| DefaultClient := {| Transport := a_RoundTripper (answering 200 ∅ []);
                                      Timeout := 30 |};
                  Transports := [{| TLSClientConfig := None |}] |}
               "consumer" "key"))
     = {| Transport := ptr_Transport 1; Timeout := 30 |}
  /\ fst (NewClient reduced_Parse reduced_Client_Do
            (fst (NewClient reduced_Parse reduced_Client_Do
                    {| DefaultClient := {| Transport := a_RoundTripper (answering 200 ∅ []);
                                           Timeout := 30 |};
                       Transports := [{| TLSClientConfig := None |}] |}
                    "consumer" "key"))
            "other" "secret")
     = {| DefaultClient := {| Transport := ptr_Transport 2; Timeout := 30 |};
          Transports := [{| TLSClientConfig := None |};
                         {| TLSClientConfig := Some {| InsecureSkipVerify := true |} |};
                         {| TLSClientConfig := Some {| InsecureSkipVerify := true |} |}] |}
  /\ exists c c',
       snd (NewClient reduced_Parse reduced_Client_Do
              {| DefaultClient := {| Transport := a_RoundTripper (answering 200 ∅ []);
                                     Timeout := 30 |};
                 Transports := [{| TLSClientConfig := None |}] |}
              "consumer" "key")
         {| DefaultClient := {| Transport := ptr_Transport 2; Timeout := 30 |};
            Transports :=
              [{| TLSClientConfig := None |};
               {| TLSClientConfig := Some {| InsecureSkipVerify := true |} |};
               {| TLSClientConfig := Some {| InsecureSkipVerify := true |} |}] |}
       = with_BaseURL c
       /\ snd (NewClient reduced_Parse reduced_Client_Do
                 (fst (NewClient reduced_Parse reduced_Client_Do
                         {| DefaultClient :=
                              {| Transport := a_RoundTripper (answering 200 ∅ []);
                                 Timeout := 30 |};
                            Transports := [{| TLSClientConfig := None |}] |}
                         "consumer" "key"))
                 "other" "secret")
            {| DefaultClient := {| Transport := ptr_Transport 2; Timeout := 30 |};
               Transports :=
                 [{| TLSClientConfig := None |};
                  {| TLSClientConfig := Some {| InsecureSkipVerify := true |} |};
                  {| TLSClientConfig := Some {| InsecureSkipVerify := true |} |}] |}
          = with_BaseURL c'
       /\ client c' = client c.
Proof.
  split; [reflexivity|]. split; [reflexivity|]. split; [reflexivity|].
  destruct (NewClient_DefaultClient reduced_Parse reduced_Client_Do
              {| DefaultClient := {| Transport := a_RoundTripper (answering 200 ∅ []);
                                     Timeout := 30 |};
                 Transports := [{| TLSClientConfig := None |}] |}
              "consumer" "key") as (transport & _ & _ & _ & _ & _ & _ & Hsame).
  destruct (Hsame "other" "secret"
              {| DefaultClient := {| Transport := ptr_Transport 2; Timeout := 30 |};
                 Transports :=
                   [{| TLSClientConfig := None |};
                    {| TLSClientConfig := Some {| InsecureSkipVerify := true |} |};
                    {| TLSClientConfig := Some {| InsecureSkipVerify := true |} |}] |}
              example_BaseURL eq_refl) as (c & c' & Hc & Hc' & _ & Hclient).
  exists c, c'. split; [exact Hc|]. split; [exact Hc'|exact Hclient].
Defined.

(** X16: a client built for a key and a consumer token, and the
    request it builds for [GET plans]. *)
Lemma NewClient_NewRequest_witness :
  exists c req,
    snd (NewClient reduced_Parse reduced_Client_Do
           {| DefaultClient := {| Transport := nil_RoundTripper; Timeout := 0 |};
              Transports := [] |}
           "consumer" "secret")
      {| DefaultClient := {| Transport := ptr_Transport 0; Timeout := 0 |};
         Transports := [{| TLSClientConfig := Some {| InsecureSkipVerify := true |} |}] |}
    = with_BaseURL c
    /\ BaseURL c = example_BaseURL
    /\ NewRequest reduced_Parse reduced_ResolveReference reduced_String c
         "GET" "plans" nil_payload = (Some req, None)
    /\ Header_Get (Request_Header req) "X-Auth-Token" = "secret"%string
    /\ Header_Get (Request_Header req) "X-Consumer-Token" = "consumer"%string.
Proof.
  eexists. eexists. split; [reflexivity|]. split; [reflexivity|].
  split; [reflexivity|].
  match goal with
  | |- Header_Get (Request_Header ?req) _ = _ /\ _ =>
      destruct (NewClient_NewRequest reduced_Parse reduced_ResolveReference reduced_String
                  reduced_Client_Do
                  {| DefaultClient := {| Transport := nil_RoundTripper; Timeout := 0 |};
                     Transports := [] |}
                  {| DefaultClient := {| Transport := ptr_Transport 0; Timeout := 0 |};
                     Transports :=
                       [{| TLSClientConfig := Some {| InsecureSkipVerify := true |} |}] |}
                  "consumer" "secret" example_BaseURL "GET" "plans" nil_payload
                  req eq_refl) as (c & Hc & _ & _ & Hreq)
  end.
  injection Hc as <-.
  destruct (Hreq eq_refl) as (Hkey & Htoken & _). split; [exact Hkey|exact Htoken].
Defined.
